(** * Offline reinforcement learning agents: the learning core

    A shallow embedding of the agents of [src/agents.py] (Atari) and
    [src/lunar/agents.py] (LunarLander): construction, the exploration
    schedules, the temporal-difference targets of every variant, the
    target-network synchronisation, metric logging and the LSTDQ system
    of the offline LSPI agent.

    Numbers.  Tensor entries are modelled by exact rationals [Q], so that
    every definition below evaluates on concrete inputs.  Two places need
    something else: the exponential schedule uses [exp] and lives in [R];
    the linear schedule is a running Python float that is decremented
    100000 times, and is modelled bit for bit by binary64 primitive
    floats. *)

From Stdlib Require Import List Bool Arith ZArith Lia String.
From Stdlib Require Import QArith Qabs Qminmax Lqa.
From Stdlib Require Import Reals Lra.
From Stdlib Require Import Floats.
Import ListNotations.

#[local] Set Warnings "-inexact-float".

(** ** Tensor helpers *)

Module Tensor.
Local Open Scope Q_scope.

(** Elementwise binary operation on two tensors of the same length. *)
Definition map2 {A B C : Type} (f : A -> B -> C) (xs : list A) (ys : list B) : list C :=
  map (fun p => f (fst p) (snd p)) (combine xs ys).

(** [torch.sum] over a vector. *)
Definition sum (xs : list Q) : Q := fold_right Qplus 0 xs.

(** [tensor.mean()]: the sum over the number of entries. *)
Definition mean (xs : list Q) : Q := sum xs / inject_Z (Z.of_nat (List.length xs)).

(** The value part of [torch.max(row, dim)] along the action axis.  The
    source never calls it on an empty action axis. *)
Definition row_max (row : list Q) : Q :=
  match row with
  | [] => 0
  | x :: xs => fold_left Qmax xs x
  end.

(** [torch.argmax]: the index of the first maximal entry. *)
Fixpoint argmax_from (best : Q) (best_i i : nat) (row : list Q) : nat :=
  match row with
  | [] => best_i
  | x :: xs =>
      if Qlt_le_dec best x then argmax_from x i (S i) xs
      else argmax_from best best_i (S i) xs
  end.

Definition argmax (row : list Q) : nat :=
  match row with
  | [] => 0%nat
  | x :: xs => argmax_from x 0 1 xs
  end.

(** [row.gather(dim, index)] for one row: the entry at [index]. *)
Definition gather (row : list Q) (index : nat) : Q := nth index row 0.

(** [values[mask] = 0]: the entries whose mask bit is set are zeroed. *)
Definition mask_zero (mask : list bool) (values : list Q) : list Q :=
  map2 (fun (d : bool) v => if d then 0 else v) mask values.

(** [values * c]. *)
Definition scale (c : Q) (values : list Q) : list Q := map (fun v => v * c) values.

(** [xs + ys], elementwise. *)
Definition add (xs ys : list Q) : list Q := map2 Qplus xs ys.

(** [SmoothL1Loss(reduction='none')] on one pair of entries (beta = 1). *)
Definition huber (x y : Q) : Q :=
  let d := Qabs (x - y) in
  if Qlt_le_dec d 1 then (1 # 2) * d * d else d - (1 # 2).

(** [SmoothL1Loss()]: the mean of the elementwise losses. *)
Definition smooth_l1 (xs ys : list Q) : Q := mean (map2 huber xs ys).

(** A value [m] is the maximum of a row. *)
Definition is_max (row : list Q) (m : Q) : Prop :=
  In m row /\ Forall (fun x => x <= m) row.

End Tensor.

(** ** Exploration schedules *)

(** Atari agents: the threshold is recomputed at every [act] call from the
    step counter (src/agents.py, lines 82-83 and 176-177). *)
Module ExpSchedule.
Local Open Scope R_scope.

Definition eps_start : R := 99 / 100.
Definition eps_end : R := 5 / 100.
Definition eps_decay : R := 5000.

Definition eps_threshold (steps_done : nat) : R :=
  eps_end + (eps_start - eps_end) * exp (-1 * INR steps_done / eps_decay).

End ExpSchedule.

(** Lunar [DQNAgent]: the threshold is a stored Python float, decremented
    by [eps_decay] at the start of [act] while it is above [eps_end]
    (src/lunar/agents.py, lines 112-119).  Python floats are IEEE 754
    binary64 numbers and so are the primitive floats used here. *)
Module LinearSchedule.
Local Open Scope float_scope.

Definition eps_start : float := 0.99.
Definition eps_end : float := 0.05.
Definition eps_decay : float := (eps_start - eps_end) / 100000.

(** The first two lines of [act]: the new value of [self.eps_threshold]. *)
Definition decay (eps_threshold : float) : float :=
  if eps_end <? eps_threshold then eps_threshold - eps_decay else eps_threshold.

(** The stored threshold [n] calls of [act] later.  The [n]-th call
    compares its random draw against the value it has just stored. *)
Fixpoint after (n : nat) (eps_threshold : float) : float :=
  match n with
  | O => eps_threshold
  | S k => after k (decay eps_threshold)
  end.

(** The value the stored threshold settles at, 0.04999999999773011. *)
Definition settled : float := 0x1.9999999949bc4p-5.

(** The number of calls after which the stored threshold stops moving. *)
Definition calls_to_settle : nat := Z.to_nat 100000.

(** A run of [n] further calls from [eps] never raises the threshold and
    never takes it below [eps_end - eps_decay]. *)
Fixpoint well_behaved (n : nat) (eps : float) : bool :=
  match n with
  | O => true
  | S k =>
      let eps' := decay eps in
      (eps' <=? eps) && (eps_end - eps_decay <=? eps') && well_behaved k eps'
  end.

End LinearSchedule.

(** The same schedule in exact arithmetic, for comparison: here the 100000
    decrements of (0.99 - 0.05) / 100000 end on [eps_end] exactly. *)
Module ExactLinearSchedule.
Local Open Scope Q_scope.

Definition eps_start : Q := 99 # 100.
Definition eps_end : Q := 5 # 100.
Definition eps_decay : Q := (eps_start - eps_end) / 100000.

Definition decay (eps_threshold : Q) : Q :=
  if Qlt_le_dec eps_end eps_threshold then eps_threshold - eps_decay else eps_threshold.

Fixpoint after (n : nat) (eps_threshold : Q) : Q :=
  match n with
  | O => eps_threshold
  | S k => after k (decay eps_threshold)
  end.

End ExactLinearSchedule.

(** ** Shared data *)

(** One row of a batch: (state, action, reward, done, new_state). *)
Record Transition (S : Type) : Type := mkTransition {
  state : S;
  action : nat;
  reward : Q;
  done : bool;
  new_state : S
}.
Arguments mkTransition {S}.
Arguments state {S}.
Arguments action {S}.
Arguments reward {S}.
Arguments done {S}.
Arguments new_state {S}.

(** A logged value: a number, or the NaN that a division 0/0 leaves in
    every tensor computed from it. *)
Inductive scalar : Type :=
  | Value (q : Q)
  | NaN.

(** The summary writer is external; what matters here is the sequence of
    [add_scalar(key, value)] calls it received. *)
Definition Summary : Type := list (string * scalar).

Definition add_scalar (w : Summary) (key : string) (value : Q) : Summary :=
  w ++ [(key, Value value)].

(** The same call with a value that is NaN. *)
Definition add_nan (w : Summary) (key : string) : Summary :=
  w ++ [(key, NaN)].

(** The exceptions that stop a method before its end. *)
Inductive failure : Type :=
  | AttributeError      (* a method called on [None] *)
  | ZeroDivisionError   (* [x % 0] *)
  | SolverError         (* [torch.solve] on a singular system *)
  | IndexError.         (* a boolean mask whose shape is not the tensor's *)

(** A method either returns, or stops with a failure; in both cases the
    object is left in some state, since attribute assignments made before a
    raise are not undone. *)
Inductive result (A : Type) : Type :=
  | Ok (a : A)
  | Raise (e : failure) (a : A).
Arguments Ok {A}.
Arguments Raise {A}.

Definition bind {A : Type} (r : result A) (f : A -> result A) : result A :=
  match r with
  | Ok a => f a
  | Raise e a => Raise e a
  end.

Notation "x <- r ;; k" := (bind r (fun x => k))
  (at level 61, r at next level, right associativity).

(** The object as the method left it. *)
Definition left_state {A : Type} (r : result A) : A :=
  match r with
  | Ok a => a
  | Raise _ a => a
  end.

Definition returns {A : Type} (r : result A) : bool :=
  match r with
  | Ok _ => true
  | Raise _ _ => false
  end.

(** The configuration dictionary of the offline agents. *)
Record Config : Type := mkConfig {
  SUMMARY_CHECKPOINT : nat;
  TARGET_UPDATE_INTERVAL : nat;
  GAMMA : Q;
  LEARNING_RATE : Q;
  NUM_HEADS : nat
}.

(** ** Function approximators

    The networks and the optimiser are external.  A network is its
    parameters ([state_dict]) and a forward pass, and a forward pass
    leaves the parameters as they are.

    In [eval()] mode, which is the mode of every target network and of the
    policy network inside [act] of the lunar classes, the pass maps each
    state to its values on its own: [q_values], [head_values] and
    [quantile_values].  So does [DQNCNN] of [src/utils/networks.py] in
    either mode, since it is made of convolutions, linear layers and ReLUs
    only; the Atari agents, which never switch the mode of their policy,
    are covered by [q_values] too.

    The networks of the lunar classes ([DQNDense], [DQNMultiHead],
    [QRDQNDense]) are defined outside these sources.  Every lunar [learn]
    starts with [self.policy.train()], and in [train()] mode a
    normalisation layer may compute other values than in [eval()] mode and
    may use the statistics of the whole batch: [q_values_train],
    [head_values_train] and [quantile_values_train] take the batch of
    states.

    [optimizer_step] stands for [zero_grad], [backward], the gradient
    clamp and [step] together: it sees the loss as a function of the
    policy parameters, the targets being detached constants.  [nan_step]
    is the same four calls on a loss that is NaN. *)
Class Approximator : Type := {
  State : Type;
  Params : Type;
  Optimizer : Type;
  (** DQNCNN, and DQNDense in [eval()] mode, on one state: a value per
      action. *)
  q_values : Params -> State -> list Q;
  (** DQNMultiHead in [eval()] mode on one state: for each head, a value
      per action. *)
  head_values : Params -> State -> list (list Q);
  (** QRDQNDense in [eval()] mode on one state: for each action, a value
      per quantile. *)
  quantile_values : Params -> State -> list (list Q);
  (** DQNDense in [train()] mode on a batch: for each state, a value per
      action. *)
  q_values_train : Params -> list State -> list (list Q);
  (** DQNMultiHead in [train()] mode on a batch: for each head and each
      state, a value per action. *)
  head_values_train : Params -> list State -> list (list (list Q));
  (** QRDQNDense in [train()] mode on a batch: for each state and each
      action, a value per quantile. *)
  quantile_values_train : Params -> list State -> list (list (list Q));
  (** [Adam(policy.parameters(), lr)]. *)
  new_optimizer : Params -> Q -> Optimizer;
  optimizer_step : Optimizer -> Params -> (Params -> Q) -> Optimizer * Params;
  nan_step : Optimizer -> Params -> Optimizer * Params
}.

(** ** The neural agents *)

(** The agent classes that own a policy and a target network.  The two
    [DQNAgent] classes share their name in the source and are told apart
    by their file. *)
Inductive AgentClass : Type :=
  | AtariDQNAgent         (* src/agents.py *)
  | AtariDoubleDQNAgent   (* src/agents.py *)
  | LunarDQNAgent         (* src/lunar/agents.py *)
  | OfflineDQNAgent
  | EnsembleOffDQNAgent
  | REMOffDQNAgent
  | QROffDQNAgent.

(** The offline classes take their batch as an argument and count batches;
    the others sample from their replay buffer and count steps. *)
Definition offline (c : AgentClass) : bool :=
  match c with
  | AtariDQNAgent | AtariDoubleDQNAgent | LunarDQNAgent => false
  | _ => true
  end.

Section Agents.
Context `{Approximator}.
Local Open Scope Q_scope.
Import Tensor.

(** The attributes of an agent object.  An attribute that a class does not
    have keeps the value its constructor below gives it and is never read
    by the methods of that class. *)
Record Agent : Type := mkAgent {
  name : AgentClass;
  action_space : nat;
  summary_writer : option Summary;
  summary_checkpoint : nat;
  target_update_steps : nat;
  policy : Params;
  target : Params;
  optimizer : Optimizer;
  steps_done : nat;
  batches_done : nat;
  eps_threshold : float;
  gamma : Q;
  num_heads : nat
}.

Definition set_summary_writer (a : Agent) (w : option Summary) : Agent :=
  {| name := name a;
     action_space := action_space a;
     summary_writer := w;
     summary_checkpoint := summary_checkpoint a;
     target_update_steps := target_update_steps a;
     policy := policy a;
     target := target a;
     optimizer := optimizer a;
     steps_done := steps_done a;
     batches_done := batches_done a;
     eps_threshold := eps_threshold a;
     gamma := gamma a;
     num_heads := num_heads a |}.

Definition set_policy (a : Agent) (o : Optimizer) (p : Params) : Agent :=
  {| name := name a;
     action_space := action_space a;
     summary_writer := summary_writer a;
     summary_checkpoint := summary_checkpoint a;
     target_update_steps := target_update_steps a;
     policy := p;
     target := target a;
     optimizer := o;
     steps_done := steps_done a;
     batches_done := batches_done a;
     eps_threshold := eps_threshold a;
     gamma := gamma a;
     num_heads := num_heads a |}.

Definition set_target (a : Agent) (p : Params) : Agent :=
  {| name := name a;
     action_space := action_space a;
     summary_writer := summary_writer a;
     summary_checkpoint := summary_checkpoint a;
     target_update_steps := target_update_steps a;
     policy := policy a;
     target := p;
     optimizer := optimizer a;
     steps_done := steps_done a;
     batches_done := batches_done a;
     eps_threshold := eps_threshold a;
     gamma := gamma a;
     num_heads := num_heads a |}.

Definition set_steps_done (a : Agent) (n : nat) : Agent :=
  {| name := name a;
     action_space := action_space a;
     summary_writer := summary_writer a;
     summary_checkpoint := summary_checkpoint a;
     target_update_steps := target_update_steps a;
     policy := policy a;
     target := target a;
     optimizer := optimizer a;
     steps_done := n;
     batches_done := batches_done a;
     eps_threshold := eps_threshold a;
     gamma := gamma a;
     num_heads := num_heads a |}.

Definition set_batches_done (a : Agent) (n : nat) : Agent :=
  {| name := name a;
     action_space := action_space a;
     summary_writer := summary_writer a;
     summary_checkpoint := summary_checkpoint a;
     target_update_steps := target_update_steps a;
     policy := policy a;
     target := target a;
     optimizer := optimizer a;
     steps_done := steps_done a;
     batches_done := n;
     eps_threshold := eps_threshold a;
     gamma := gamma a;
     num_heads := num_heads a |}.

Definition set_eps_threshold (a : Agent) (e : float) : Agent :=
  {| name := name a;
     action_space := action_space a;
     summary_writer := summary_writer a;
     summary_checkpoint := summary_checkpoint a;
     target_update_steps := target_update_steps a;
     policy := policy a;
     target := target a;
     optimizer := optimizer a;
     steps_done := steps_done a;
     batches_done := batches_done a;
     eps_threshold := e;
     gamma := gamma a;
     num_heads := num_heads a |}.

(** *** Construction

    A constructor builds two networks, each with its own fresh random
    parameters ([policy0], [target0]), and then calls [load_state_dict] on
    the target. *)

(** [self.target.load_state_dict(source.state_dict())]. *)
Definition load_state_dict (source : Params) : Params := source.

Definition init (c : AgentClass) (action_space : nat) (cfg : Config)
    (policy0 target0 : Params) : Agent :=
  match c with
  | AtariDQNAgent =>
      (* line 67: the target loads its own state dict *)
      mkAgent c action_space None 100 2000 policy0 (load_state_dict target0)
        (new_optimizer policy0 (1 # 10000)) 0 0 LinearSchedule.eps_start 0 0
  | AtariDoubleDQNAgent =>
      mkAgent c action_space None 100 2000 policy0 (load_state_dict policy0)
        (new_optimizer policy0 (1 # 10000)) 0 0 LinearSchedule.eps_start 0 0
  | LunarDQNAgent =>
      mkAgent c action_space None 100 2500 policy0 (load_state_dict policy0)
        (new_optimizer policy0 (5 # 10000)) 0 0 LinearSchedule.eps_start 0 0
  | OfflineDQNAgent | QROffDQNAgent =>
      mkAgent c action_space None (SUMMARY_CHECKPOINT cfg) (TARGET_UPDATE_INTERVAL cfg)
        policy0 (load_state_dict policy0)
        (new_optimizer policy0 (LEARNING_RATE cfg)) 0 0 LinearSchedule.eps_start
        (GAMMA cfg) 0
  | EnsembleOffDQNAgent | REMOffDQNAgent =>
      mkAgent c action_space None (SUMMARY_CHECKPOINT cfg) (TARGET_UPDATE_INTERVAL cfg)
        policy0 (load_state_dict policy0)
        (new_optimizer policy0 (LEARNING_RATE cfg)) 0 0 LinearSchedule.eps_start
        (GAMMA cfg) (NUM_HEADS cfg)
  end.

Definition add_summary_writer (a : Agent) (w : Summary) : Agent :=
  set_summary_writer a (Some w).

(** *** act *)

(** The action of the greedy branch of [act]. *)
Definition greedy_action (a : Agent) (s : State) : nat :=
  match name a with
  | AtariDQNAgent | AtariDoubleDQNAgent | LunarDQNAgent | OfflineDQNAgent =>
      argmax (q_values (policy a) s)
  | EnsembleOffDQNAgent | REMOffDQNAgent =>
      (* the mean over the heads, then the argmax over the actions *)
      let heads := head_values (policy a) s in
      argmax (map (fun i => mean (map (fun h => gather h i) heads))
                (seq 0 (action_space a)))
  | QROffDQNAgent =>
      argmax (map mean (quantile_values (policy a) s))
  end.

(** What [act] does to the object.  Which branch it takes depends on a
    random draw and has no effect on the attributes. *)
Definition act (a : Agent) (s : State) : Agent :=
  match name a with
  | AtariDQNAgent | AtariDoubleDQNAgent => set_steps_done a (S (steps_done a))
  | LunarDQNAgent => set_eps_threshold a (LinearSchedule.decay (eps_threshold a))
  | _ => a
  end.

(** *** Targets and losses *)

(** [policy(state).gather(1, action)] in the Atari classes: Q(s, a) for
    the actions taken. *)
Definition state_action_values (p : Params) (batch : list (Transition State)) : list Q :=
  map (fun t => gather (q_values p (state t)) (action t)) batch.

(** The same in lunar [DQNAgent.learn], line 151, and
    [OfflineDQNAgent.learn], line 234, where the policy network is in
    [train()] mode. *)
Definition train_state_action_values (p : Params) (batch : list (Transition State))
    : list Q :=
  map2 (fun row t => gather row (action t)) (q_values_train p (map state batch)) batch.

(** Atari [DQNAgent.learn], lines 117-121, and [OfflineDQNAgent.learn],
    lines 237-241. *)
Definition dqn_expected (gamma : Q) (target : Params)
    (batch : list (Transition State)) : list Q :=
  let next_state_values := map (fun t => row_max (q_values target (new_state t))) batch in
  let next_state_values := mask_zero (map done batch) next_state_values in
  add (scale gamma next_state_values) (map reward batch).

(** [DoubleDQNAgent.learn], lines 211-218. *)
Definition double_dqn_expected (gamma : Q) (policy target : Params)
    (batch : list (Transition State)) : list Q :=
  let new_action := map (fun t => argmax (q_values policy (new_state t))) batch in
  let next_state_values :=
    map2 (fun t a => gather (q_values target (new_state t)) a) batch new_action in
  let next_state_values := mask_zero (map done batch) next_state_values in
  add (scale gamma next_state_values) (map reward batch).

(** Lunar [DQNAgent.learn], lines 153-162: the bootstrap action is the
    argmax of the policy network, which line 141 has put in [train()] mode;
    its value is read off the target network. *)
Definition lunar_dqn_expected (gamma : Q) (policy target : Params)
    (batch : list (Transition State)) : list Q :=
  let new_action := map argmax (q_values_train policy (map new_state batch)) in
  let next_state_values :=
    map2 (fun t a => gather (q_values target (new_state t)) a) batch new_action in
  let next_state_values := mask_zero (map done batch) next_state_values in
  add (scale gamma next_state_values) (map reward batch).

Definition dqn_loss (batch : list (Transition State)) (expected : list Q)
    (p : Params) : Q :=
  smooth_l1 (state_action_values p batch) expected.

Definition dqn_loss_train (batch : list (Transition State)) (expected : list Q)
    (p : Params) : Q :=
  smooth_l1 (train_state_action_values p batch) expected.

(** [EnsembleOffDQNAgent.learn]: one row of targets per head; the mask
    zeroes the same batch positions in every head. *)
Definition ensemble_state_action_values (num_heads : nat) (p : Params)
    (batch : list (Transition State)) : list (list Q) :=
  let values := head_values_train p (map state batch) in
  map (fun h => map2 (fun row t => gather row (action t)) (nth h values []) batch)
    (seq 0 num_heads).

Definition ensemble_expected (gamma : Q) (num_heads : nat) (target : Params)
    (batch : list (Transition State)) : list (list Q) :=
  map (fun h =>
         let next_state_values :=
           map (fun t => row_max (nth h (head_values target (new_state t)) [])) batch in
         let next_state_values := mask_zero (map done batch) next_state_values in
         add (scale gamma next_state_values) (map reward batch))
    (seq 0 num_heads).

Definition ensemble_loss (num_heads : nat) (batch : list (Transition State))
    (expected : list (list Q)) (p : Params) : Q :=
  smooth_l1 (List.concat (ensemble_state_action_values num_heads p batch)) (List.concat expected).

(** [REMOffDQNAgent.learn], lines 379-380: [rand] is the value of
    [torch.rand(self.num_heads)], each entry in [0, 1).  When the entries
    sum to zero the division is 0/0 and there is no weight vector. *)
Definition rem_alpha (rand : list Q) : option (list Q) :=
  let total := sum rand in
  if Qeq_bool total 0 then None else Some (map (fun x => x / total) rand).

(** [torch.sum(alpha * values, dim=0)] over the head axis. *)
Definition mix (alpha : list Q) (per_head : list Q) : Q :=
  sum (map2 Qmult alpha per_head).

(** Lines 385-386.  [gather(2, actions)] has one value per head and
    transition, and [squeeze()] drops every axis of length 1.  On a batch
    of one transition it drops the batch axis: [alpha], of shape (heads, 1),
    is then broadcast against a vector of length heads, and the sum over
    the first axis returns, for each head, that head's value times the sum
    of the weights.  On every other batch the result is the mixture of the
    heads for each transition. *)
Definition rem_state_action_values (alpha : list Q) (p : Params)
    (batch : list (Transition State)) : list Q :=
  let values :=
    map (fun rows => map2 (fun row t => gather row (action t)) rows batch)
      (head_values_train p (map state batch)) in
  match batch with
  | [_] =>
      map (fun v => sum (map (fun w => w * v) alpha)) (map (fun row => nth 0 row 0) values)
  | _ =>
      map (fun b => mix alpha (map (fun row => nth b row 0) values))
        (seq 0 (List.length batch))
  end.

Definition rem_expected (gamma : Q) (action_space : nat) (alpha : list Q)
    (target : Params) (batch : list (Transition State)) : list Q :=
  let all_next_states :=
    map (fun t =>
           let heads := head_values target (new_state t) in
           map (fun i => mix alpha (map (fun h => gather h i) heads)) (seq 0 action_space))
      batch in
  let next_state_values := map row_max all_next_states in
  let next_state_values := mask_zero (map done batch) next_state_values in
  add (scale gamma next_state_values) (map reward batch).

(** Line 400: [SmoothL1Loss()] broadcasts a target of one entry against
    all the values it is given. *)
Definition rem_loss (alpha : list Q) (batch : list (Transition State))
    (expected : list Q) (p : Params) : Q :=
  let values := rem_state_action_values alpha p batch in
  match expected with
  | [y] => mean (map (fun v => huber v y) values)
  | _ => smooth_l1 values expected
  end.

(** What [expected_state_action_values.mean()] is when [alpha] is NaN:
    the mask has replaced the NaN of every terminal transition by 0, so
    that the mean is a number only on a batch of terminal transitions. *)
Definition rem_nan_expected_mean (batch : list (Transition State)) : option Q :=
  match batch with
  | [] => None
  | _ => if forallb done batch then Some (mean (map reward batch)) else None
  end.

(** [QROffDQNAgent]: lines 436-437. *)
Definition num_quantiles : nat := 5.

Definition tau : list Q :=
  map (fun i => inject_Z (Z.of_nat (i + 1)) / (1 * inject_Z (Z.of_nat num_quantiles)))
    (seq 0 num_quantiles).

(** Lines 464-465: one row of quantile values per transition, from the
    policy network in [train()] mode. *)
Definition qr_state_action_values (p : Params) (batch : list (Transition State))
    : list (list Q) :=
  map2 (fun values t => nth (action t) values [])
    (quantile_values_train p (map state batch)) batch.

(** Lines 468-476.  On a batch of one transition the [squeeze()] of line
    471 drops the batch axis, [next_state_values] is a vector of the five
    quantiles, and the mask [done], of length 1, does not fit it: line 472
    raises [IndexError] ([None]).  On every other batch there is one row
    of targets per transition. *)
Definition qr_expected (gamma : Q) (target : Params) (batch : list (Transition State))
    : option (list (list Q)) :=
  match batch with
  | [_] => None
  | _ =>
      Some (map (fun t =>
                   let next_q_values := quantile_values target (new_state t) in
                   let max_action_index := argmax (map mean next_q_values) in
                   let next_state_values := nth max_action_index next_q_values [] in
                   let next_state_values :=
                     if done t then map (fun _ => 0) next_state_values
                     else next_state_values in
                   map (fun v => v * gamma + reward t) next_state_values)
              batch)
  end.

(** Lines 481-482: [delta = (diff < 0).float()]. *)
Definition qr_delta (expected state_action_values : list (list Q)) : list (list Q) :=
  map2 (map2 (fun e v => if Qlt_le_dec (e - v) 0 then 1 else 0))
    expected state_action_values.

(** Line 483: [torch.abs(self.tau - delta)], [tau] broadcast along the
    batch axis. *)
Definition qr_weights (tau : list Q) (delta : list (list Q)) : list (list Q) :=
  map (fun row => map2 (fun t d => Qabs (t - d)) tau row) delta.

Definition qr_loss (batch : list (Transition State)) (expected delta : list (list Q))
    (p : Params) : Q :=
  let huber_loss := map2 (map2 huber) (qr_state_action_values p batch) expected in
  mean (List.concat (map2 (map2 Qmult) (qr_weights tau delta) huber_loss)).

(** *** learn *)

(** The counter that the cadence tests of [learn] read: [steps_done] in the
    classes that sample from a replay buffer, [batches_done] in the offline
    ones. *)
Definition counter (a : Agent) : nat :=
  if offline (name a) then batches_done a else steps_done a.

(** "Update target every n steps". *)
Definition update_target (a : Agent) : result Agent :=
  match target_update_steps a with
  | O => Raise ZeroDivisionError a
  | S _ =>
      if (counter a mod target_update_steps a =? 0)%nat
      then Ok (set_target a (load_state_dict (policy a)))
      else Ok a
  end.

(** "Log metrics": the test on the writer comes first and short-circuits. *)
Definition log_metrics (loss expected_mean : Q) (a : Agent) : result Agent :=
  match summary_writer a with
  | None => Ok a
  | Some w =>
      match summary_checkpoint a with
      | O => Raise ZeroDivisionError a
      | S _ =>
          if (counter a mod summary_checkpoint a =? 0)%nat
          then Ok (set_summary_writer a
                     (Some (add_scalar (add_scalar w "Loss" loss)
                              "Expected Q Values" expected_mean)))
          else Ok a
      end
  end.

(** The common second half of every [learn]: loss, optimiser step, target
    update, logging and, in the offline classes, the batch counter. *)
Definition optimize (a : Agent) (loss_fn : Params -> Q) (expected_mean : Q)
    : result Agent :=
  let loss := loss_fn (policy a) in
  let (o, p) := optimizer_step (optimizer a) (policy a) loss_fn in
  a <- update_target (set_policy a o p) ;;
  a <- log_metrics loss expected_mean a ;;
  Ok (if offline (name a) then set_batches_done a (S (batches_done a)) else a).

(** The same half when the loss is NaN.  Nothing raises: the optimiser
    steps, the target is reloaded when due, and what is logged is NaN for
    the loss and [expected_mean] ([None] for NaN) for the targets. *)
Definition log_nan_metrics (expected_mean : option Q) (a : Agent) : result Agent :=
  match summary_writer a with
  | None => Ok a
  | Some w =>
      match summary_checkpoint a with
      | O => Raise ZeroDivisionError a
      | S _ =>
          if (counter a mod summary_checkpoint a =? 0)%nat
          then Ok (set_summary_writer a
                     (Some (match expected_mean with
                            | Some m => add_scalar (add_nan w "Loss") "Expected Q Values" m
                            | None => add_nan (add_nan w "Loss") "Expected Q Values"
                            end)))
          else Ok a
      end
  end.

Definition optimize_nan (a : Agent) (expected_mean : option Q) : result Agent :=
  let (o, p) := nan_step (optimizer a) (policy a) in
  a <- update_target (set_policy a o p) ;;
  a <- log_nan_metrics expected_mean a ;;
  Ok (if offline (name a) then set_batches_done a (S (batches_done a)) else a).

(** [learn]: [batch] is the sampled or given batch and [rand] the value of
    the one random draw a [learn] makes ([torch.rand(num_heads)] in
    [REMOffDQNAgent]; unused elsewhere).  In [REMOffDQNAgent] a draw that
    sums to zero makes [alpha] NaN, and with it the values, the loss and
    the gradient.  In [QROffDQNAgent] a batch of one transition raises
    [IndexError] at line 472, before the loss is computed. *)
Definition learn (a : Agent) (batch : list (Transition State)) (rand : list Q)
    : result Agent :=
  match name a with
  | AtariDQNAgent =>
      let expected := dqn_expected (999 # 1000) (target a) batch in
      optimize a (dqn_loss batch expected) (mean expected)
  | AtariDoubleDQNAgent =>
      let expected := double_dqn_expected (999 # 1000) (policy a) (target a) batch in
      optimize a (dqn_loss batch expected) (mean expected)
  | LunarDQNAgent =>
      let expected := lunar_dqn_expected (99 # 100) (policy a) (target a) batch in
      optimize a (dqn_loss_train batch expected) (mean expected)
  | OfflineDQNAgent =>
      let expected := dqn_expected (gamma a) (target a) batch in
      optimize a (dqn_loss_train batch expected) (mean expected)
  | EnsembleOffDQNAgent =>
      let expected := ensemble_expected (gamma a) (num_heads a) (target a) batch in
      optimize a (ensemble_loss (num_heads a) batch expected) (mean (List.concat expected))
  | REMOffDQNAgent =>
      match rem_alpha rand with
      | None => optimize_nan a (rem_nan_expected_mean batch)
      | Some alpha =>
          let expected := rem_expected (gamma a) (action_space a) alpha (target a) batch in
          optimize a (rem_loss alpha batch expected) (mean expected)
      end
  | QROffDQNAgent =>
      match qr_expected (gamma a) (target a) batch with
      | None => Raise IndexError a
      | Some expected =>
          let delta := qr_delta expected (qr_state_action_values (policy a) batch) in
          optimize a (qr_loss batch expected delta) (mean (List.concat expected))
      end
  end.

(** *** Sequences of calls *)

Inductive Call : Type :=
  | Act (s : State)
  | Learn (batch : list (Transition State)) (rand : list Q).

Definition call (a : Agent) (c : Call) : result Agent :=
  match c with
  | Act s => Ok (act a s)
  | Learn batch rand => learn a batch rand
  end.

Fixpoint run (a : Agent) (calls : list Call) : result Agent :=
  match calls with
  | [] => Ok a
  | c :: rest => a' <- call a c ;; run a' rest
  end.

(** The number of [act] calls in a sequence. *)
Fixpoint acts (calls : list Call) : nat :=
  match calls with
  | [] => 0
  | Act _ :: rest => S (acts rest)
  | Learn _ _ :: rest => acts rest
  end.

End Agents.

(** ** The offline LSPI agent *)

Module LSPI.
Import Tensor.
Local Open Scope Q_scope.

(** [RadialBasisFunction] is not part of the sources at hand and is taken
    as a parameter: a deterministic feature map from a state and an action
    to a vector of [size] numbers. *)
Class BasisFunction : Type := {
  Observation : Type;
  size : nat;
  evaluate : Observation -> nat -> list Q;
  evaluate_length : forall s a, List.length (evaluate s a) = size
}.

(** The two library routines [learn] calls: [torch.solve(b, A)], which
    fails on a singular matrix, and [torch.norm]. *)
Class LinearAlgebra : Type := {
  solve : list (list Q) -> list Q -> option (list Q);
  norm : list Q -> Q
}.

(** Vectors are lists, matrices lists of rows. *)
Definition zeros (k : nat) : list Q := repeat 0 k.

(** [torch.zeros((k, k)).fill_diagonal_(c)]. *)
Definition diagonal (k : nat) (c : Q) : list (list Q) :=
  map (fun i => map (fun j => if (i =? j)%nat then c else 0) (seq 0 k)) (seq 0 k).

(** [torch.matmul(u, v.T)] for two column vectors. *)
Definition outer (u v : list Q) : list (list Q) :=
  map (fun x => map (fun y => x * y) v) u.

Definition mat_add (m n : list (list Q)) : list (list Q) := map2 add m n.

Definition vec_sub (u v : list Q) : list Q := map2 Qminus u v.

Definition dot (u v : list Q) : Q := sum (map2 Qmult u v).

Definition entry (m : list (list Q)) (i j : nat) : Q := nth j (nth i m []) 0.

(** A [k] by [k] matrix. *)
Definition square (k : nat) (m : list (list Q)) : Prop :=
  List.length m = k /\ Forall (fun row => List.length row = k) m.

(** Equal entries across the diagonal, for a [k] by [k] matrix. *)
Definition symmetric (k : nat) (m : list (list Q)) : Prop :=
  forall i j, (i < k)%nat -> (j < k)%nat -> entry m i j == entry m j i.

Section Agent.
Context `{BasisFunction} `{LinearAlgebra}.

Record Agent : Type := mkAgent {
  summary_writer : option Summary;
  action_space : nat;
  weights : list Q;
  gamma : Q
}.

(** Lines 527-534; [rand] is the value of [torch.rand(size)]. *)
Definition init (action_space : nat) (cfg : Config) (rand : list Q) : Agent :=
  mkAgent None action_space (map (fun r => (-1 - 1) * r + 1) rand) (GAMMA cfg).

Definition add_summary_writer (a : Agent) (w : Summary) : Agent :=
  mkAgent (Some w) (action_space a) (weights a) (gamma a).

(** Lines 536-542: the action with the largest linear value. *)
Definition act (a : Agent) (s : Observation) : nat :=
  let q_values := map (fun b => dot (weights a) (evaluate s b)) (seq 0 (action_space a)) in
  argmax q_values.

(** Lines 558-564. *)
Definition phi_sa (t : Transition Observation) : list Q :=
  evaluate (state t) (action t).

Definition phi_sprime (a : Agent) (t : Transition Observation) : list Q :=
  if negb (done t) then
    let best_action := act a (state t) in
    evaluate (new_state t) best_action
  else zeros size.

(** Lines 566-568: one turn of the loop over the batch. *)
Definition accumulate (a : Agent) (acc : list (list Q) * list Q)
    (t : Transition Observation) : list (list Q) * list Q :=
  let (a_mat, b_vec) := acc in
  let phi_subtraction := vec_sub (phi_sa t) (map (fun x => gamma a * x) (phi_sprime a t)) in
  (mat_add a_mat (outer (phi_sa t) phi_subtraction),
   add b_vec (map (fun x => x * reward t) (phi_sa t))).

(** Lines 553-568: [a_mat] and [b_vec] as handed to the solver. *)
Definition system (a : Agent) (batch : list (Transition Observation))
    : list (list Q) * list Q :=
  fold_left (accumulate a) batch (diagonal size (1 # 10), zeros size).

(** Lines 570-576. *)
Definition learn (a : Agent) (batch : list (Transition Observation)) : result Agent :=
  let (a_mat, b_vec) := system a batch in
  match solve a_mat b_vec with
  | None => Raise SolverError a
  | Some new_weights =>
      let distance := norm (vec_sub new_weights (weights a)) in
      let a := mkAgent (summary_writer a) (action_space a) new_weights (gamma a) in
      match summary_writer a with
      | None => Raise AttributeError a
      | Some w =>
          Ok (mkAgent (Some (add_scalar w "Distance" distance)) (action_space a)
                (weights a) (gamma a))
      end
  end.

(** The [(i, j)] entry that one transition adds to [a_mat]. *)
Definition contribution (a : Agent) (t : Transition Observation) (i j : nat) : Q :=
  nth i (phi_sa t) 0 * (nth j (phi_sa t) 0 - gamma a * nth j (phi_sprime a t) 0).

End Agent.
End LSPI.

(** ** Statement vocabulary *)

Section Vocabulary.
Context `{Approximator}.
Local Open Scope Q_scope.
Import Tensor.

(** The discount that [learn] multiplies the bootstrap value with: a
    literal in the classes that sample from a replay buffer, the
    configured [GAMMA] in the offline ones. *)
Definition discount (a : Agent) : Q :=
  match name a with
  | AtariDQNAgent | AtariDoubleDQNAgent => 999 # 1000
  | LunarDQNAgent => 99 # 100
  | _ => gamma a
  end.

(** [y] is the DQN target of [t]: the reward alone for a terminal
    transition, otherwise the reward plus the discounted maximum of the
    target network's values on the next state. *)
Definition max_target (gamma : Q) (target : Params) (t : Transition State) (y : Q) : Prop :=
  if done t then y == reward t
  else exists m, is_max (q_values target (new_state t)) m /\ y == reward t + gamma * m.

(** [y] is the Double-DQN target of [t]: the bootstrap action is the argmax
    of the policy network's values on the next state, the bootstrap value
    is the target network's value of that action. *)
Definition double_target (gamma : Q) (policy target : Params) (t : Transition State)
    (y : Q) : Prop :=
  let policy_row := q_values policy (new_state t) in
  let a := argmax policy_row in
  y == reward t + gamma * gather (q_values target (new_state t)) a
                  * (if done t then 0 else 1) /\
  (done t = false ->
   (a < List.length policy_row)%nat /\ is_max policy_row (gather policy_row a)).


(** The states an agent object can be in: as constructed, after a writer
    was attached, and after any call of [act] or [learn], whether it
    returned or raised. *)
Inductive reachable (a0 : Agent) : Agent -> Prop :=
  | reach_init : reachable a0 a0
  | reach_writer a w : reachable a0 a -> reachable a0 (add_summary_writer a w)
  | reach_call a c : reachable a0 a -> reachable a0 (left_state (call a c)).

End Vocabulary.

(** ** Instances for the examples *)

Module Examples.
Local Open Scope Q_scope.

(** A one-state tabular approximator: the parameters are the action values
    themselves, every head returns them, every quantile of an action is its
    value, in either mode, and an optimiser step moves every parameter by
    one.  A step on a NaN loss leaves no parameter behind. *)
Definition tabular : Approximator := {|
  State := unit;
  Params := list Q;
  Optimizer := unit;
  q_values := fun p _ => p;
  head_values := fun p _ => [p];
  quantile_values := fun p _ => map (fun v => repeat v 5) p;
  q_values_train := fun p states => map (fun _ => p) states;
  head_values_train := fun p states => [map (fun _ => p) states];
  quantile_values_train :=
    fun p states => map (fun _ => map (fun v => repeat v 5) p) states;
  new_optimizer := fun _ _ => tt;
  optimizer_step := fun o p _ => (o, map (fun v => v + 1) p);
  nan_step := fun o _ => (o, [])
|}.


(** The table with a second head, whose values are those of the first
    plus 10. *)
Definition two_heads : Approximator := {|
  State := unit;
  Params := list Q;
  Optimizer := unit;
  q_values := fun p _ => p;
  head_values := fun p _ => [p; map (fun v => v + 10) p];
  quantile_values := fun p _ => map (fun v => repeat v 5) p;
  q_values_train := fun p states => map (fun _ => p) states;
  head_values_train :=
    fun p states => [map (fun _ => p) states;
                     map (fun _ => map (fun v => v + 10) p) states];
  quantile_values_train :=
    fun p states => map (fun _ => map (fun v => repeat v 5) p) states;
  new_optimizer := fun _ _ => tt;
  optimizer_step := fun o p _ => (o, map (fun v => v + 1) p);
  nan_step := fun o _ => (o, [])
|}.

Definition cfg : Config := mkConfig 100 2 (99 # 100) (1 # 1000) 1.

(** A transition of the one-state problem. *)
Definition step (r : Q) (d : bool) : Transition unit := mkTransition tt 0 r d tt.

(** Features of a scalar observation, one block of [1; s] per action. *)
Definition block_features (s : Q) (a : nat) : list Q :=
  if (a =? 0)%nat then [1; s; 0; 0] else [0; 0; 1; s].

Definition block_features_length (s : Q) (a : nat) :
  List.length (block_features s a) = 4%nat :=
  match a with
  | O => eq_refl
  | S _ => eq_refl
  end.

Definition blocks : LSPI.BasisFunction := {|
  LSPI.Observation := Q;
  LSPI.size := 4;
  LSPI.evaluate := block_features;
  LSPI.evaluate_length := block_features_length
|}.

(** A solver for diagonal systems, which is all the examples hand to it,
    and the 1-norm as a stand-in for [torch.norm], whose value is only
    logged. *)
Definition diagonal_solve (m : list (list Q)) (b : list Q) : option (list Q) :=
  let k := List.length b in
  if forallb (fun i => forallb (fun j => (i =? j)%nat || Qeq_bool (LSPI.entry m i j) 0)
                         (seq 0 k) && negb (Qeq_bool (LSPI.entry m i i) 0)) (seq 0 k)
  then Some (map (fun i => nth i b 0 / LSPI.entry m i i) (seq 0 k))
  else None.

Definition algebra : LSPI.LinearAlgebra := {|
  LSPI.solve := diagonal_solve;
  LSPI.norm := fun v => Tensor.sum (map Qabs v)
|}.

End Examples.

(** ** Network geometry *)

(** [DQNCNN.__init__], src/utils/networks.py, lines 29-48: the size of the
    flattened feature map that the first linear layer is built for. *)
Module Networks.
Local Open Scope Z_scope.

Definition kernel_size : list Z := [8; 4].
Definition stride : list Z := [4; 2].

(** Lines 41-42.  [//] is floor division, as [Z.div]; both strides are
    positive. *)
Definition size_out (size kernel_size stride : Z) : Z :=
  (size - (kernel_size - 1) - 1) / stride + 1.

(** Lines 44-45: [conv_w] is computed from the height and [conv_h] from
    the width. *)
Definition conv_w (input_height : Z) : Z :=
  size_out (size_out input_height (nth 0 kernel_size 0) (nth 0 stride 0))
    (nth 1 kernel_size 0) (nth 1 stride 0).

Definition conv_h (input_width : Z) : Z :=
  size_out (size_out input_width (nth 0 kernel_size 0) (nth 0 stride 0))
    (nth 1 kernel_size 0) (nth 1 stride 0).

(** Line 46. *)
Definition linear_input_size (input_height input_width : Z) : Z :=
  conv_w input_height * conv_h input_width * 32.

End Networks.

(** ** The offline driver *)

(** [train], src/atari_archive/offline.py: the action map and the
    evaluation loop of lines 59-77.  The environment is external; the loop
    is run on the sequence of (reward, done) pairs that [env.step]
    returns. *)
Module Offline.
Local Open Scope Q_scope.

Definition action_space : nat := 3.

(** Line 25: [action_map = {0: 0, 1: 2, 2: 3}]; [None] is a [KeyError]. *)
Definition action_map (action : nat) : option nat :=
  match action with
  | 0%nat => Some 0%nat
  | 1%nat => Some 2%nat
  | 2%nat => Some 3%nat
  | _ => None
  end.

(** Python's [sum]: a left fold from 0. *)
Definition py_sum (xs : list Q) : Q := fold_left Qplus xs 0.

(** The variables of the loop. *)
Record Evaluation : Type := mkEvaluation {
  rewards : list Q;
  mean_reward : list Q;
  counter : nat
}.

(** Lines 59-61. *)
Definition start : Evaluation := mkEvaluation [] [] 0.

(** Lines 72-77: one turn of the loop, given what [env.step] returned. *)
Definition eval_step (st : Evaluation) (outcome : Q * bool) : Evaluation :=
  let (reward, done) := outcome in
  let rewards := rewards st ++ [reward] in
  if done then mkEvaluation [] (mean_reward st ++ [py_sum rewards]) (S (counter st))
  else mkEvaluation rewards (mean_reward st) (counter st).

(** Line 62: [while counter < EVAL_EPISODES], followed along a finite
    record of what [env.step] returned.  The result is the state of the
    loop where the record ends or where the loop exits, whichever comes
    first, and the part of the record that was not read.  Where the record
    ends first the loop is still running: this is a state on the way, not
    the state the loop ends in. *)
Fixpoint eval_loop (EVAL_EPISODES : nat) (env : list (Q * bool)) (st : Evaluation)
    : Evaluation * list (Q * bool) :=
  match env with
  | [] => (st, [])
  | outcome :: rest =>
      if (counter st <? EVAL_EPISODES)%nat
      then eval_loop EVAL_EPISODES rest (eval_step st outcome)
      else (st, env)
  end.

(** The loop itself.  It exits only through its test; when the record
    ends while the test still holds, the loop has not exited ([None]) and
    its next turn calls [env.step] again. *)
Fixpoint eval_run (EVAL_EPISODES : nat) (env : list (Q * bool)) (st : Evaluation)
    : option (Evaluation * list (Q * bool)) :=
  if (counter st <? EVAL_EPISODES)%nat
  then match env with
       | [] => None
       | outcome :: rest => eval_run EVAL_EPISODES rest (eval_step st outcome)
       end
  else Some (st, env).

(** The number of episode ends in a record. *)
Definition episode_ends (env : list (Q * bool)) : nat :=
  List.length (filter snd env).

End Offline.

(** ** The values behind the greedy action *)

Section GreedyValues.
Context `{Approximator}.
Import Tensor.

(** The tensor that [act] hands to [torch.argmax]: the policy network's
    values, averaged over the heads or over the quantiles where there are
    any. *)
Definition greedy_values (a : Agent) (s : State) : list Q :=
  match name a with
  | AtariDQNAgent | AtariDoubleDQNAgent | LunarDQNAgent | OfflineDQNAgent =>
      q_values (policy a) s
  | EnsembleOffDQNAgent | REMOffDQNAgent =>
      let heads := head_values (policy a) s in
      map (fun i => mean (map (fun h => gather h i) heads)) (seq 0 (action_space a))
  | QROffDQNAgent =>
      map mean (quantile_values (policy a) s)
  end.

End GreedyValues.

(** ** Counting calls *)

Section Counting.
Context `{Approximator}.

(** The number of [learn] calls in a sequence. *)
Fixpoint learns (calls : list Call) : nat :=
  match calls with
  | [] => 0
  | Act _ :: rest => learns rest
  | Learn _ _ :: rest => S (learns rest)
  end.

End Counting.

(** * Properties *)

(** ** Tensor helpers *)

Module TensorFacts.
Import Tensor.
Local Open Scope Q_scope.

Lemma map2_map {A B C D : Type} (f : B -> C -> D) (g : A -> B) (h : A -> C) (l : list A) :
  map2 f (map g l) (map h l) = map (fun x => f (g x) (h x)) l.
Proof.
  unfold map2. induction l as [|x l IH]; simpl; [reflexivity|].
  now rewrite IH.
Qed.

Lemma map2_map_r {A C D : Type} (f : A -> C -> D) (h : A -> C) (l : list A) :
  map2 f l (map h l) = map (fun x => f x (h x)) l.
Proof.
  rewrite <- (map_id l) at 1. apply map2_map.
Qed.

Lemma map2_length {A B C : Type} (f : A -> B -> C) (xs : list A) (ys : list B) :
  List.length (map2 f xs ys) = Nat.min (List.length xs) (List.length ys).
Proof.
  unfold map2. now rewrite length_map, length_combine.
Qed.

Lemma nth_map2 {A B C : Type} (f : A -> B -> C) (xs : list A) (ys : list B)
    (i : nat) (dx : A) (dy : B) (d : C) :
  (i < List.length xs)%nat -> (i < List.length ys)%nat ->
  nth i (map2 f xs ys) d = f (nth i xs dx) (nth i ys dy).
Proof.
  revert ys i. induction xs as [|x xs IH]; intros [|y ys] [|i]; simpl; intros; try lia.
  - reflexivity.
  - apply IH; lia.
Qed.




Lemma Forall2_map_r {A B : Type} (P : A -> B -> Prop) (h : A -> B) (l : list A) :
  (forall x, In x l -> P x (h x)) -> Forall2 P l (map h l).
Proof.
  induction l as [|x l IH]; simpl; intros Hall; constructor.
  - apply Hall. now left.
  - apply IH. intros y Hy. apply Hall. now right.
Qed.

(** The running maximum is one of the values seen and bounds them all. *)
Lemma fold_left_Qmax_spec (xs : list Q) (x : Q) :
  let m := fold_left Qmax xs x in
  In m (x :: xs) /\ x <= m /\ Forall (fun y => y <= m) xs.
Proof.
  revert x. induction xs as [|y ys IH]; intros x; simpl.
  - split; [now left|]. split; [apply Qle_refl | constructor].
  - destruct (IH (Qmax x y)) as (Hin & Hle & Hall).
    split; [|split].
    + destruct Hin as [Heq | Hin]; [|now right; right].
      revert Heq. unfold Qmax, GenericMinMax.gmax.
      destruct (x ?= y); intros <-; auto.
    + eapply Qle_trans; [apply Q.le_max_l | exact Hle].
    + constructor; [|exact Hall].
      eapply Qle_trans; [apply Q.le_max_r | exact Hle].
Qed.

Lemma row_max_is_max (row : list Q) : row <> [] -> is_max row (row_max row).
Proof.
  destruct row as [|x xs]; [congruence|]. intros _.
  destruct (fold_left_Qmax_spec xs x) as (Hin & Hle & Hall).
  split; [exact Hin|]. constructor; assumption.
Qed.

(** The scan behind [argmax] keeps the index of a maximal value of the
    part of the row already seen. *)
Lemma argmax_from_spec (row seen : list Q) (best : Q) (best_i : nat) :
  (best_i < List.length seen)%nat ->
  nth best_i seen 0 = best ->
  Forall (fun x => x <= best) seen ->
  let r := argmax_from best best_i (List.length seen) row in
  (r < List.length (seen ++ row))%nat /\
  Forall (fun x => x <= nth r (seen ++ row) 0) (seen ++ row).
Proof.
  revert seen best best_i.
  induction row as [|x xs IH]; intros seen best best_i Hlt Hnth Hall; simpl.
  - rewrite app_nil_r. split; [exact Hlt|]. now rewrite Hnth.
  - replace (seen ++ x :: xs) with ((seen ++ [x]) ++ xs) by now rewrite <- app_assoc.
    replace (S (List.length seen)) with (List.length (seen ++ [x]))
      by (rewrite length_app; simpl; lia).
    destruct (Qlt_le_dec best x) as [Hbx | Hxb].
    + apply IH.
      * rewrite length_app; simpl; lia.
      * rewrite app_nth2 by lia. now rewrite Nat.sub_diag.
      * apply Forall_app. split.
        -- eapply Forall_impl; [|exact Hall]. simpl. intros y Hy.
           eapply Qle_trans; [exact Hy | now apply Qlt_le_weak].
        -- constructor; [apply Qle_refl | constructor].
    + apply IH.
      * rewrite length_app; simpl; lia.
      * now rewrite app_nth1 by lia.
      * apply Forall_app. split; [exact Hall|].
        constructor; [exact Hxb | constructor].
Qed.

Lemma argmax_spec (row : list Q) :
  row <> [] ->
  (argmax row < List.length row)%nat /\ is_max row (gather row (argmax row)).
Proof.
  destruct row as [|x xs]; [congruence|]. intros _.
  pose proof (argmax_from_spec xs [x] x 0) as Hspec. simpl in Hspec.
  destruct Hspec as [Hlt Hall]; [lia | reflexivity | |].
  - constructor; [apply Qle_refl | constructor].
  - split; [exact Hlt|]. split; [|exact Hall].
    unfold gather. apply nth_In. exact Hlt.
Qed.

(** Two maxima of the same row are equal. *)
Lemma is_max_unique (row : list Q) (m n : Q) : is_max row m -> is_max row n -> m == n.
Proof.
  intros [Hm Hmall] [Hn Hnall].
  rewrite Forall_forall in Hmall, Hnall.
  apply Qle_antisym; auto.
Qed.

End TensorFacts.

(** ** Targets of the DQN family *)

Section TargetFacts.
Context `{Approximator}.
Import Tensor TensorFacts.
Local Open Scope Q_scope.


Lemma double_dqn_expected_rows (g : Q) (p tg : Params) (batch : list (Transition State)) :
  double_dqn_expected g p tg batch =
  map (fun t =>
         (if done t then 0
          else gather (q_values tg (new_state t)) (argmax (q_values p (new_state t)))) * g
         + reward t)
    batch.
Proof.
  unfold double_dqn_expected, mask_zero, scale, add.
  rewrite map2_map_r.
  rewrite (map2_map (fun (d : bool) v => if d then 0 else v)), map_map.
  apply map2_map.
Qed.


Lemma double_dqn_expected_rule (g : Q) (p tg : Params) (batch : list (Transition State)) :
  (forall t, In t batch -> done t = false -> q_values p (new_state t) <> []) ->
  Forall2 (double_target g p tg) batch (double_dqn_expected g p tg batch).
Proof.
  intros Hrows. rewrite double_dqn_expected_rows. apply Forall2_map_r.
  intros t Ht. unfold double_target. specialize (Hrows t Ht). split.
  - destruct (done t); ring.
  - intros Hdone. now apply argmax_spec, Hrows.
Qed.



(** With one set of parameters in both roles the Double-DQN target is the
    DQN target. *)
Lemma double_dqn_expected_same (g : Q) (p : Params) (batch : list (Transition State)) :
  (forall t, In t batch -> done t = false -> q_values p (new_state t) <> []) ->
  Forall2 (max_target g p) batch (double_dqn_expected g p p batch).
Proof.
  intros Hrows. rewrite double_dqn_expected_rows. apply Forall2_map_r.
  intros t Ht. unfold max_target. specialize (Hrows t Ht).
  destruct (done t).
  - ring.
  - exists (gather (q_values p (new_state t)) (argmax (q_values p (new_state t)))).
    split; [|ring]. now apply argmax_spec, Hrows.
Qed.

End TargetFacts.

(** ** The agent as a state machine *)

Section MachineFacts.
Context `{Approximator}.
Import Tensor TensorFacts.
Local Open Scope Q_scope.

(** Case analysis on every test that [optimize] and [optimize_nan]
    make. *)
Ltac optimize_cases :=
  unfold optimize, optimize_nan, update_target, log_metrics, log_nan_metrics,
    bind, counter;
  try destruct (optimizer_step _ _ _); try destruct (nan_step _ _); simpl;
  repeat match goal with
         | |- context [match ?x with _ => _ end] =>
             lazymatch x with
             | context [match _ with _ => _ end] => fail
             | _ => destruct x eqn:?; simpl
             end
         end.

(** What [optimize] never touches. *)
Lemma optimize_frame (a : Agent) (loss_fn : Params -> Q) (m : Q) :
  let a' := left_state (optimize a loss_fn m) in
  name a' = name a /\ action_space a' = action_space a /\
  target_update_steps a' = target_update_steps a /\
  summary_checkpoint a' = summary_checkpoint a /\
  steps_done a' = steps_done a /\ eps_threshold a' = eps_threshold a /\
  gamma a' = gamma a /\ num_heads a' = num_heads a.
Proof.
  optimize_cases; repeat split; congruence.
Qed.

Lemma optimize_nan_frame (a : Agent) (m : option Q) :
  let a' := left_state (optimize_nan a m) in
  name a' = name a /\ action_space a' = action_space a /\
  target_update_steps a' = target_update_steps a /\
  summary_checkpoint a' = summary_checkpoint a /\
  steps_done a' = steps_done a /\ eps_threshold a' = eps_threshold a /\
  gamma a' = gamma a /\ num_heads a' = num_heads a.
Proof.
  optimize_cases; repeat split; congruence.
Qed.

(** The parameters after [optimize]: the policy is the optimiser's output;
    the target is that same output when the counter is a multiple of
    [target_update_steps], and is left alone otherwise. *)
Lemma optimize_networks (a : Agent) (loss_fn : Params -> Q) (m : Q) :
  let a' := left_state (optimize a loss_fn m) in
  policy a' = snd (optimizer_step (optimizer a) (policy a) loss_fn) /\
  target a' =
    match target_update_steps a with
    | O => target a
    | S _ => if (counter a mod target_update_steps a =? 0)%nat then policy a' else target a
    end.
Proof.
  optimize_cases; split; unfold load_state_dict; congruence.
Qed.

Lemma optimize_nan_networks (a : Agent) (m : option Q) :
  let a' := left_state (optimize_nan a m) in
  policy a' = snd (nan_step (optimizer a) (policy a)) /\
  target a' =
    match target_update_steps a with
    | O => target a
    | S _ => if (counter a mod target_update_steps a =? 0)%nat then policy a' else target a
    end.
Proof.
  optimize_cases; split; unfold load_state_dict; congruence.
Qed.

(** [optimize] returns unless one of its two moduli is zero. *)
Lemma optimize_returns (a : Agent) (loss_fn : Params -> Q) (m : Q) :
  target_update_steps a <> 0%nat ->
  summary_writer a = None \/ summary_checkpoint a <> 0%nat ->
  exists a',
    optimize a loss_fn m = Ok a' /\
    batches_done a' = (if offline (name a) then S (batches_done a) else batches_done a) /\
    (summary_writer a = None -> summary_writer a' = None).
Proof.
  intros Hn Hw.
  optimize_cases; try congruence; try (destruct Hw; congruence);
    eexists; (split; [reflexivity|]); split; simpl; congruence.
Qed.

Lemma optimize_nan_returns (a : Agent) (m : option Q) :
  target_update_steps a <> 0%nat ->
  summary_writer a = None \/ summary_checkpoint a <> 0%nat ->
  exists a',
    optimize_nan a m = Ok a' /\
    batches_done a' = (if offline (name a) then S (batches_done a) else batches_done a) /\
    (summary_writer a = None -> summary_writer a' = None).
Proof.
  intros Hn Hw.
  optimize_cases; try congruence; try (destruct Hw; congruence);
    eexists; (split; [reflexivity|]); split; simpl; congruence.
Qed.

(** [qr_expected] has no value on the batches of one transition, and only
    there. *)
Lemma qr_expected_none (g : Q) (tg : Params) (batch : list (Transition State)) :
  qr_expected g tg batch = None <-> List.length batch = 1%nat.
Proof.
  unfold qr_expected. destruct batch as [|t [|u rest]]; simpl; split;
    intros Heq; try discriminate; reflexivity.
Qed.

(** [learn] is [optimize] on the loss of its class, with two exceptions:
    the draw of mixture weights that cannot be normalised, and the batch
    of one transition handed to [QROffDQNAgent]. *)
Lemma learn_shape (a : Agent) (batch : list (Transition State)) (rand : list Q) :
  (exists loss_fn m, learn a batch rand = optimize a loss_fn m) \/
  (name a = REMOffDQNAgent /\ rem_alpha rand = None /\
   learn a batch rand = optimize_nan a (rem_nan_expected_mean batch)) \/
  (name a = QROffDQNAgent /\ List.length batch = 1%nat /\
   learn a batch rand = Raise IndexError a).
Proof.
  unfold learn. destruct (name a) eqn:Hname; try (left; eauto; fail).
  - destruct (rem_alpha rand); [left; eauto | right; left; auto].
  - destruct (qr_expected (gamma a) (target a) batch) eqn:Hqr; [left; eauto|].
    right. right. apply qr_expected_none in Hqr. auto.
Qed.

Lemma learn_frame (a : Agent) (batch : list (Transition State)) (rand : list Q) :
  let a' := left_state (learn a batch rand) in
  name a' = name a /\ action_space a' = action_space a /\
  target_update_steps a' = target_update_steps a /\
  summary_checkpoint a' = summary_checkpoint a /\
  steps_done a' = steps_done a /\ eps_threshold a' = eps_threshold a /\
  gamma a' = gamma a /\ num_heads a' = num_heads a.
Proof.
  destruct (learn_shape a batch rand)
    as [(f & m & ->) | [(_ & _ & ->) | (_ & _ & ->)]].
  - apply optimize_frame.
  - apply optimize_nan_frame.
  - simpl. repeat split.
Qed.

(** The target after a [learn] that got as far as the optimiser step. *)
Lemma learn_networks (a : Agent) (batch : list (Transition State)) (rand : list Q) :
  let a' := left_state (learn a batch rand) in
  (name a = QROffDQNAgent -> List.length batch <> 1%nat) ->
  target a' =
    match target_update_steps a with
    | O => target a
    | S _ => if (counter a mod target_update_steps a =? 0)%nat then policy a' else target a
    end.
Proof.
  intros a' Hqr. subst a'.
  destruct (learn_shape a batch rand)
    as [(f & m & ->) | [(_ & _ & ->) | (Hname & Hone & _)]].
  - apply optimize_networks.
  - apply optimize_nan_networks.
  - now elim (Hqr Hname).
Qed.

(** [learn] returns unless one of its two moduli is zero or its batch
    cannot be masked. *)
Lemma learn_returns (a : Agent) (batch : list (Transition State)) (rand : list Q) :
  target_update_steps a <> 0%nat ->
  summary_writer a = None \/ summary_checkpoint a <> 0%nat ->
  (name a = QROffDQNAgent -> List.length batch <> 1%nat) ->
  exists a',
    learn a batch rand = Ok a' /\
    batches_done a' = (if offline (name a) then S (batches_done a) else batches_done a) /\
    (summary_writer a = None -> summary_writer a' = None).
Proof.
  intros Hn Hw Hqr.
  destruct (learn_shape a batch rand)
    as [(f & m & ->) | [(_ & _ & ->) | (Hname & Hone & _)]].
  - now apply optimize_returns.
  - now apply optimize_nan_returns.
  - now elim (Hqr Hname).
Qed.

(** No call changes the class or the cadence of an agent. *)
Lemma call_frame (a : Agent) (c : Call) :
  let a' := left_state (call a c) in
  name a' = name a /\ target_update_steps a' = target_update_steps a /\
  summary_checkpoint a' = summary_checkpoint a.
Proof.
  destruct c as [s | batch rand]; simpl.
  - unfold act. destruct (name a) eqn:Hname; simpl; repeat split; assumption.
  - pose proof (learn_frame a batch rand) as Hf. simpl in Hf. tauto.
Qed.

Lemma init_name (c : AgentClass) (n : nat) (cfg : Config) (policy0 target0 : Params) :
  name (init c n cfg policy0 target0) = c.
Proof. destruct c; reflexivity. Qed.

Lemma reachable_frame (a0 a : Agent) :
  reachable a0 a ->
  name a = name a0 /\ target_update_steps a = target_update_steps a0.
Proof.
  induction 1 as [| a w _ IH | a c _ IH].
  - split; reflexivity.
  - exact IH.
  - pose proof (call_frame a c) as Hf. simpl in Hf.
    destruct Hf as (-> & -> & _). exact IH.
Qed.

(** The lunar [DQNAgent] never advances [steps_done], so every [learn]
    finds it at 0 and reloads the target: between calls the two networks
    hold the same parameters. *)
Lemma lunar_networks_agree (n : nat) (cfg : Config) (policy0 target0 : Params) (a : Agent) :
  reachable (init LunarDQNAgent n cfg policy0 target0) a ->
  target a = policy a /\ steps_done a = 0%nat /\
  name a = LunarDQNAgent /\ target_update_steps a = 2500%nat.
Proof.
  induction 1 as [| a w _ IH | a c _ IH].
  - repeat split.
  - exact IH.
  - destruct IH as (Heq & Hsteps & Hname & Hn).
    destruct c as [s | batch rand]; simpl.
    + unfold act. rewrite Hname. simpl. auto.
    + pose proof (learn_frame a batch rand) as Hf. simpl in Hf.
      destruct Hf as (Hname' & _ & Hn' & _ & Hsteps' & _).
      split; [|repeat split; congruence].
      rewrite (learn_networks a batch rand) by congruence.
      rewrite Hn. unfold counter. rewrite Hname, Hsteps. reflexivity.
Qed.

(** A sequence of calls that returns went through the state each call
    left. *)
Lemma run_cons (a a' : Agent) (c : Call) (rest : list Call) :
  run a (c :: rest) = Ok a' ->
  call a c = Ok (left_state (call a c)) /\ run (left_state (call a c)) rest = Ok a'.
Proof.
  simpl. unfold bind. destruct (call a c) as [a1 | e a1]; simpl; [auto | discriminate].
Qed.

(** The stored threshold of a lunar [DQNAgent] is decremented once per
    [act] call and by nothing else. *)
Lemma run_lunar_threshold (calls : list Call) (a a' : Agent) :
  name a = LunarDQNAgent ->
  run a calls = Ok a' ->
  eps_threshold a' = LinearSchedule.after (acts calls) (eps_threshold a).
Proof.
  revert a. induction calls as [|c rest IH]; intros a Hname Hrun.
  - simpl in Hrun. injection Hrun as <-. reflexivity.
  - apply run_cons in Hrun as [_ Hrest].
    pose proof (call_frame a c) as (Hname' & _). simpl in Hname'.
    rewrite (IH _ (eq_trans Hname' Hname) Hrest).
    destruct c as [s | batch rand]; simpl.
    + unfold act. rewrite Hname. reflexivity.
    + pose proof (learn_frame a batch rand) as Hf. simpl in Hf.
      destruct Hf as (_ & _ & _ & _ & _ & -> & _). reflexivity.
Qed.

(** The step counter of an Atari agent is the number of [act] calls made:
    the [k]-th call of [act], counted from 0, computes its threshold from
    [steps_done] = [k]. *)
Lemma run_atari_steps_done (calls : list Call) (a a' : Agent) :
  name a = AtariDQNAgent \/ name a = AtariDoubleDQNAgent ->
  run a calls = Ok a' ->
  steps_done a' = (steps_done a + acts calls)%nat.
Proof.
  revert a. induction calls as [|c rest IH]; intros a Hname Hrun.
  - simpl in Hrun. injection Hrun as <-. simpl. lia.
  - apply run_cons in Hrun as [_ Hrest].
    pose proof (call_frame a c) as (Hname' & _). simpl in Hname'.
    rewrite (IH (left_state (call a c))) by (rewrite ?Hname'; assumption).
    destruct c as [s | batch rand]; simpl.
    + unfold act. destruct Hname as [-> | ->]; simpl; lia.
    + pose proof (learn_frame a batch rand) as Hf. simpl in Hf.
      destruct Hf as (_ & _ & _ & _ & -> & _). reflexivity.
Qed.

End MachineFacts.

(** ** Construction, targets and synchronisation of the neural agents *)

Section NeuralClaims.
Context `{Approximator}.
Import Tensor TensorFacts.
Local Open Scope Q_scope.

(** Every constructor but one loads the policy's parameters into the
    target. *)
Lemma init_clones_policy (c : AgentClass) (n : nat) (cfg : Config)
    (policy0 target0 : Params) :
  c <> AtariDQNAgent ->
  target (init c n cfg policy0 target0) = policy (init c n cfg policy0 target0).
Proof.
  destruct c; intros Hc; try reflexivity. congruence.
Qed.

(** C3, at the Atari [DQNAgent]: its constructor makes the target load the
    target's own state dict (src/agents.py, line 67), so the target keeps
    the random parameters it was created with and differs from the policy
    whenever the two initialisations differ. *)
Theorem atari_dqn_target_not_cloned (n : nat) (cfg : Config) (policy0 target0 : Params) :
  policy0 <> target0 ->
  policy (init AtariDQNAgent n cfg policy0 target0) = policy0 /\
  target (init AtariDQNAgent n cfg policy0 target0) = target0 /\
  target (init AtariDQNAgent n cfg policy0 target0)
    <> policy (init AtariDQNAgent n cfg policy0 target0).
Proof.
  intros Hneq. simpl. unfold load_state_dict. repeat split. congruence.
Qed.


(** C4: [learn] of the Atari [DoubleDQNAgent] regresses, for every
    transition, on reward + 0.999 * Q_target(next_state, a) * (1 - done),
    where [a] is the argmax of the policy network's values on the next
    state. *)
Theorem double_dqn_learn_target (a : Agent) (batch : list (Transition State))
    (rand : list Q) :
  name a = AtariDoubleDQNAgent ->
  (forall t, In t batch -> done t = false -> q_values (policy a) (new_state t) <> []) ->
  exists expected,
    learn a batch rand = optimize a (dqn_loss batch expected) (mean expected) /\
    Forall2 (double_target (999 # 1000) (policy a) (target a)) batch expected.
Proof.
  intros Hname Hrows. unfold learn. rewrite Hname.
  eexists. split; [reflexivity|]. now apply double_dqn_expected_rule.
Qed.

(** C2, as the code has it: a [learn] call that returns leaves the target
    equal to the policy it has just updated when the counter it reads is a
    multiple of [target_update_steps], and leaves the target as it was
    otherwise; [act] never changes either network.  The counter is
    [batches_done] in the offline classes, where [learn] itself advances
    it after the test and [act] leaves it alone, and [steps_done] in the
    others, where [learn] leaves it alone; [act] of the Atari classes
    advances it by one. *)
Theorem target_update_rule (a : Agent) (batch : list (Transition State)) (rand : list Q) :
  target_update_steps a <> 0%nat ->
  summary_writer a = None \/ summary_checkpoint a <> 0%nat ->
  (name a = QROffDQNAgent -> List.length batch <> 1%nat) ->
  (exists a',
     learn a batch rand = Ok a' /\
     target a' = (if (counter a mod target_update_steps a =? 0)%nat
                  then policy a' else target a) /\
     counter a' = (if offline (name a) then S (counter a) else counter a)) /\
  (forall s,
     target (act a s) = target a /\ policy (act a s) = policy a /\
     match name a with
     | AtariDQNAgent | AtariDoubleDQNAgent => counter (act a s) = S (counter a)
     | LunarDQNAgent => True
     | _ => counter (act a s) = counter a
     end).
Proof.
  intros Hn Hw Hqr. split.
  - destruct (learn_returns a batch rand Hn Hw Hqr) as (a' & Hl & Hb & _).
    pose proof (learn_frame a batch rand) as Hf.
    pose proof (learn_networks a batch rand Hqr) as Ht.
    rewrite Hl in Hf, Ht. simpl in Hf, Ht.
    destruct Hf as (Hname & _ & _ & _ & Hsteps & _).
    exists a'. split; [exact Hl|]. split.
    + rewrite Ht. destruct (target_update_steps a); [congruence | reflexivity].
    + unfold counter. rewrite Hname, Hb, Hsteps.
      destruct (offline (name a)); reflexivity.
  - intros s. unfold act, counter.
    destruct (name a) eqn:Hname; simpl; rewrite ?Hname; simpl; auto.
Qed.

(** X4: without a summary writer [learn] of a neural agent logs nothing
    and returns, on every batch that [QROffDQNAgent] can mask. *)
Lemma learn_without_writer (a : Agent) (batch : list (Transition State)) (rand : list Q) :
  summary_writer a = None ->
  target_update_steps a <> 0%nat ->
  (name a = QROffDQNAgent -> List.length batch <> 1%nat) ->
  exists a', learn a batch rand = Ok a' /\ summary_writer a' = None.
Proof.
  intros Hw Hn Hqr.
  destruct (learn_returns a batch rand Hn (or_introl Hw) Hqr) as (a' & Hl & _ & Hw').
  exists a'. split; [exact Hl | auto].
Qed.

(** X5: between calls the target network of a lunar [DQNAgent] holds the
    parameters of its policy network: [steps_done] stays at 0, and every
    [learn] reloads the target. *)
Theorem lunar_target_equals_policy (n : nat) (cfg : Config) (policy0 target0 : Params)
    (a : Agent) :
  reachable (init LunarDQNAgent n cfg policy0 target0) a ->
  target a = policy a /\ steps_done a = 0%nat.
Proof.
  intros Hreach.
  destruct (lunar_networks_agree _ _ _ _ _ Hreach) as (Ht & Hs & _). auto.
Qed.

Lemma sum_repeat_zero (k : nat) : sum (repeat 0 k) == 0.
Proof.
  induction k as [|k IH]; simpl; [reflexivity|]. rewrite IH. ring.
Qed.

(** C7, at the draw of all zeros: [torch.rand] ranges over [0, 1), and
    when every entry it returns is 0 the normalisation divides 0 by 0.
    Whatever the number of heads, there is then no vector of weights, and
    [learn] of [REMOffDQNAgent] goes on with NaN in its place: it steps
    the optimiser on a NaN loss. *)
Theorem rem_zero_draw (k n : nat) (cfg : Config) (policy0 target0 : Params)
    (batch : list (Transition State)) :
  let a := init REMOffDQNAgent n
             (mkConfig (SUMMARY_CHECKPOINT cfg) (TARGET_UPDATE_INTERVAL cfg)
                (GAMMA cfg) (LEARNING_RATE cfg) (S k))
             policy0 target0 in
  let rand := repeat 0 (num_heads a) in
  List.length rand = S k /\
  Forall (fun r => 0 <= r /\ r < 1) rand /\
  rem_alpha rand = None /\
  learn a batch rand = optimize_nan a (rem_nan_expected_mean batch).
Proof.
  intros a rand.
  assert (Hnone : rem_alpha rand = None).
  { unfold rem_alpha. destruct (Qeq_bool (sum rand) 0) eqn:Hz; [reflexivity|].
    apply Qeq_bool_neq in Hz. elim Hz. apply sum_repeat_zero. }
  split; [apply repeat_length|]. split.
  - apply Forall_forall. intros r Hr. apply repeat_spec in Hr. subst r.
    split; [apply Qle_refl | reflexivity].
  - split; [exact Hnone|]. unfold learn.
    change (name a) with REMOffDQNAgent. now rewrite Hnone.
Qed.

End NeuralClaims.

(** ** Quantile weights and mixture weights *)

Module WeightFacts.
Import Tensor TensorFacts.
Local Open Scope Q_scope.

Lemma Forall_map2 {A B C : Type} (PA : A -> Prop) (PB : B -> Prop) (P : C -> Prop)
    (f : A -> B -> C) (xs : list A) (ys : list B) :
  (forall x y, PA x -> PB y -> P (f x y)) ->
  Forall PA xs -> Forall PB ys -> Forall P (map2 f xs ys).
Proof.
  intros Hf Hxs. revert ys.
  induction Hxs as [|x xs Hx _ IH]; intros ys Hys; [constructor|].
  destruct Hys as [|y ys Hy Hys]; [constructor|].
  unfold map2. simpl. constructor; [now apply Hf | now apply IH].
Qed.

Lemma Forall_trivial {A : Type} (xs : list A) : Forall (fun _ => True) xs.
Proof. induction xs; constructor; auto. Qed.

(** Every entry of [delta] is the float of a boolean. *)
Lemma qr_delta_bits (expected values : list (list Q)) :
  Forall (Forall (fun d => d == 0 \/ d == 1)) (qr_delta expected values).
Proof.
  unfold qr_delta.
  apply Forall_map2 with (PA := fun _ => True) (PB := fun _ => True);
    try apply Forall_trivial.
  intros row row' _ _.
  apply Forall_map2 with (PA := fun _ => True) (PB := fun _ => True);
    try apply Forall_trivial.
  intros e v _ _. destruct (Qlt_le_dec (e - v) 0); [right | left]; reflexivity.
Qed.

Lemma tau_unit_interval : Forall (fun t => 0 <= t <= 1) tau.
Proof.
  unfold tau. simpl. repeat constructor; unfold Qle; simpl; lia.
Qed.

Lemma abs_level_minus_bit (t d : Q) :
  0 <= t <= 1 -> d == 0 \/ d == 1 -> 0 <= Qabs (t - d) <= 1.
Proof.
  intros [Ht0 Ht1] Hd. split; [apply Qabs_nonneg|].
  apply Qabs_case; intros; destruct Hd as [Hd | Hd]; rewrite Hd; Lqa.lra.
Qed.




(** C6: the quantile levels of [QROffDQNAgent] are 0.2, 0.4, 0.6, 0.8 and
    1.0, and every entry of the weight tensor |tau - 1{target - predicted
    < 0}| that [learn] multiplies the Huber loss with lies in [0, 1]. *)
Theorem qr_levels_and_weights :
  Forall2 Qeq tau [0.2; 0.4; 0.6; 0.8; 1.0] /\
  forall expected values : list (list Q),
    Forall (Forall (fun w => 0 <= w <= 1))
      (qr_weights tau (qr_delta expected values)).
Proof.
  split.
  - unfold tau. simpl. repeat constructor; reflexivity.
  - intros expected values. unfold qr_weights. apply Forall_map.
    eapply Forall_impl; [|apply qr_delta_bits]. simpl.
    intros row Hrow.
    apply Forall_map2 with (PA := fun t => 0 <= t <= 1) (PB := fun d => d == 0 \/ d == 1);
      [apply abs_level_minus_bit | apply tau_unit_interval | exact Hrow].
Qed.

End WeightFacts.

(** ** The LSTDQ system of the LSPI agent *)

Module LSPIFacts.
Import Tensor TensorFacts LSPI.
Local Open Scope Q_scope.

Lemma square_row (k : nat) (m : list (list Q)) (i : nat) :
  square k m -> (i < k)%nat -> List.length (nth i m []) = k.
Proof.
  intros [Hlen Hrows] Hi. rewrite Forall_forall in Hrows.
  apply Hrows, nth_In. lia.
Qed.

Lemma nth_map_seq {A : Type} (f : nat -> A) (k i : nat) (d : A) :
  (i < k)%nat -> nth i (map f (seq 0 k)) d = f i.
Proof.
  intros Hi. rewrite (nth_indep _ d (f 0%nat)) by now rewrite length_map, length_seq.
  rewrite map_nth, seq_nth by exact Hi. reflexivity.
Qed.

Lemma entry_diagonal (k : nat) (c : Q) (i j : nat) :
  (i < k)%nat -> (j < k)%nat ->
  entry (diagonal k c) i j = if (i =? j)%nat then c else 0.
Proof.
  intros Hi Hj. unfold entry, diagonal.
  now rewrite (nth_map_seq _ k i) by exact Hi; rewrite nth_map_seq by exact Hj.
Qed.

Lemma square_diagonal (k : nat) (c : Q) : square k (diagonal k c).
Proof.
  unfold diagonal. split.
  - now rewrite length_map, length_seq.
  - apply Forall_map, Forall_forall. intros i _.
    now rewrite length_map, length_seq.
Qed.

Lemma nth_map_default {A B : Type} (f : A -> B) (l : list A) (i : nat) (da : A) (db : B) :
  (i < List.length l)%nat -> nth i (map f l) db = f (nth i l da).
Proof.
  intros Hi. rewrite (nth_indep _ db (f da)) by now rewrite length_map.
  apply map_nth.
Qed.

Lemma entry_outer (u v : list Q) (i j : nat) :
  (i < List.length u)%nat -> (j < List.length v)%nat ->
  entry (outer u v) i j = nth i u 0 * nth j v 0.
Proof.
  intros Hi Hj. unfold entry, outer.
  rewrite (nth_map_default _ u i 0) by exact Hi.
  now rewrite (nth_map_default _ v j 0) by exact Hj.
Qed.

Lemma square_outer (k : nat) (u v : list Q) :
  List.length u = k -> List.length v = k -> square k (outer u v).
Proof.
  intros Hu Hv. unfold outer. split.
  - now rewrite length_map.
  - apply Forall_map, Forall_forall. intros x _. now rewrite length_map.
Qed.

Lemma entry_mat_add (k : nat) (m n : list (list Q)) (i j : nat) :
  square k m -> square k n -> (i < k)%nat -> (j < k)%nat ->
  entry (mat_add m n) i j = entry m i j + entry n i j.
Proof.
  intros Hm Hn Hi Hj. unfold entry, mat_add.
  rewrite (nth_map2 add m n i [] []) by (destruct Hm, Hn; lia).
  unfold add.
  apply nth_map2; rewrite (square_row k) by assumption; assumption.
Qed.

Lemma square_mat_add (k : nat) (m n : list (list Q)) :
  square k m -> square k n -> square k (mat_add m n).
Proof.
  intros [Hm Hmr] [Hn Hnr]. unfold mat_add. split.
  - rewrite map2_length. lia.
  - apply WeightFacts.Forall_map2
      with (PA := fun row => List.length row = k) (PB := fun row => List.length row = k);
      try assumption.
    intros r r' Hr Hr'. unfold add. rewrite map2_length. lia.
Qed.

Lemma sum_ext {A : Type} (f g : A -> Q) (l : list A) :
  (forall x, In x l -> f x == g x) -> sum (map f l) == sum (map g l).
Proof.
  induction l as [|x l IH]; simpl; intros Hfg; [reflexivity|].
  rewrite (Hfg x) by now left.
  rewrite IH; [reflexivity|]. intros y Hy. apply Hfg. now right.
Qed.

Section Agent.
Context `{BasisFunction} `{LinearAlgebra}.

Lemma phi_sa_length (t : Transition Observation) : List.length (phi_sa t) = size.
Proof. apply evaluate_length. Qed.

Lemma phi_sprime_length (a : Agent) (t : Transition Observation) :
  List.length (phi_sprime a t) = size.
Proof.
  unfold phi_sprime. destruct (negb (done t)).
  - apply evaluate_length.
  - apply repeat_length.
Qed.

Lemma phi_subtraction_nth (a : Agent) (t : Transition Observation) (j : nat) :
  (j < size)%nat ->
  nth j (vec_sub (phi_sa t) (map (fun x => gamma a * x) (phi_sprime a t))) 0 =
  nth j (phi_sa t) 0 - gamma a * nth j (phi_sprime a t) 0.
Proof.
  intros Hj. unfold vec_sub.
  rewrite (nth_map2 Qminus _ _ j 0 0)
    by (rewrite ?length_map, ?phi_sa_length, ?phi_sprime_length; exact Hj).
  now rewrite (nth_map_default _ _ j 0) by now rewrite phi_sprime_length.
Qed.

(** One turn of the loop adds the transition's contribution to every
    entry and keeps the shape. *)
Lemma accumulate_entry (a : Agent) (a_mat : list (list Q)) (b_vec : list Q)
    (t : Transition Observation) (i j : nat) :
  square size a_mat -> (i < size)%nat -> (j < size)%nat ->
  entry (fst (accumulate a (a_mat, b_vec) t)) i j
  = entry a_mat i j + contribution a t i j.
Proof.
  intros Hsq Hi Hj. unfold accumulate, contribution. simpl.
  assert (Hlen : List.length
                   (vec_sub (phi_sa t) (map (fun x => gamma a * x) (phi_sprime a t))) = size).
  { unfold vec_sub. rewrite map2_length, length_map, phi_sa_length, phi_sprime_length.
    lia. }
  rewrite (entry_mat_add size) by (auto using square_outer, phi_sa_length).
  rewrite entry_outer by (rewrite ?Hlen, ?phi_sa_length; assumption).
  now rewrite phi_subtraction_nth.
Qed.

Lemma accumulate_square (a : Agent) (acc : list (list Q) * list Q)
    (t : Transition Observation) :
  square size (fst acc) -> square size (fst (accumulate a acc t)).
Proof.
  destruct acc as [a_mat b_vec]. simpl. intros Hsq.
  apply square_mat_add; [exact Hsq|].
  apply square_outer; [apply phi_sa_length|].
  unfold vec_sub. rewrite map2_length, length_map, phi_sa_length, phi_sprime_length. lia.
Qed.

Lemma fold_accumulate_entry (a : Agent) (batch : list (Transition Observation))
    (acc : list (list Q) * list Q) (i j : nat) :
  square size (fst acc) -> (i < size)%nat -> (j < size)%nat ->
  entry (fst (fold_left (accumulate a) batch acc)) i j
  == entry (fst acc) i j + sum (map (fun t => contribution a t i j) batch).
Proof.
  revert acc. induction batch as [|t batch IH]; intros acc Hsq Hi Hj; simpl.
  - ring.
  - rewrite IH by (auto using accumulate_square).
    destruct acc as [a_mat b_vec].
    rewrite accumulate_entry by assumption. simpl. ring.
Qed.

(** The matrix handed to the solver, entry by entry. *)
Lemma system_entry (a : Agent) (batch : list (Transition Observation)) (i j : nat) :
  (i < size)%nat -> (j < size)%nat ->
  entry (fst (system a batch)) i j
  == (if (i =? j)%nat then 1 # 10 else 0)
     + sum (map (fun t => contribution a t i j) batch).
Proof.
  intros Hi Hj. unfold system.
  rewrite fold_accumulate_entry by (simpl; auto using square_diagonal).
  simpl. now rewrite entry_diagonal by assumption.
Qed.

(** How far the matrix is from symmetric: only the bootstrap term
    contributes. *)
Lemma system_skew (a : Agent) (batch : list (Transition Observation)) (i j : nat) :
  (i < size)%nat -> (j < size)%nat ->
  entry (fst (system a batch)) i j - entry (fst (system a batch)) j i
  == - gamma a
     * sum (map (fun t => nth i (phi_sa t) 0 * nth j (phi_sprime a t) 0
                          - nth j (phi_sa t) 0 * nth i (phi_sprime a t) 0) batch).
Proof.
  intros Hi Hj. rewrite !system_entry by assumption.
  rewrite (Nat.eqb_sym j i).
  setoid_replace
    ((if (i =? j)%nat then 1 # 10 else 0) + sum (map (fun t => contribution a t i j) batch)
     - ((if (i =? j)%nat then 1 # 10 else 0) + sum (map (fun t => contribution a t j i) batch)))
    with (sum (map (fun t => contribution a t i j) batch)
          - sum (map (fun t => contribution a t j i) batch)) by ring.
  induction batch as [|t batch IH]; simpl; [ring|].
  setoid_replace
    (contribution a t i j + sum (map (fun t0 => contribution a t0 i j) batch)
     - (contribution a t j i + sum (map (fun t0 => contribution a t0 j i) batch)))
    with ((contribution a t i j - contribution a t j i)
          + (sum (map (fun t0 => contribution a t0 i j) batch)
             - sum (map (fun t0 => contribution a t0 j i) batch))) by ring.
  rewrite IH. unfold contribution. ring.
Qed.

(** C8, as the code has it: the matrix handed to the solver is symmetric
    when every transition of the batch is terminal, or when gamma is 0.
    (For non-terminal transitions it carries the bootstrap term of
    [system_skew], which is not symmetric.) *)
Theorem lstdq_matrix_symmetry (a : Agent) (batch : list (Transition Observation)) :
  (forall t, In t batch -> done t = true) \/ gamma a == 0 ->
  symmetric size (fst (system a batch)).
Proof.
  intros Hcase i j Hi Hj.
  rewrite !system_entry by assumption. rewrite (Nat.eqb_sym j i).
  apply Qplus_comp; [reflexivity|]. apply sum_ext.
  intros t Ht. unfold contribution.
  destruct Hcase as [Hdone | Hgamma].
  - unfold phi_sprime. rewrite (Hdone t Ht). simpl. unfold zeros.
    rewrite !nth_repeat. ring.
  - rewrite Hgamma. ring.
Qed.

(** C9, at the LSPI agent: its [learn] calls [add_scalar] on the writer
    without testing it, so with no writer attached the call never returns
    normally; when the solver succeeds the weights are already replaced
    when the [AttributeError] is raised. *)
Theorem lspi_learn_without_writer (a : Agent) (batch : list (Transition Observation)) :
  summary_writer a = None ->
  returns (learn a batch) = false /\
  forall new_weights,
    solve (fst (system a batch)) (snd (system a batch)) = Some new_weights ->
    learn a batch
    = Raise AttributeError (mkAgent None (action_space a) new_weights (gamma a)).
Proof.
  intros Hw. unfold learn. destruct (system a batch) as [a_mat b_vec]. simpl.
  rewrite Hw. split.
  - destruct (solve a_mat b_vec); reflexivity.
  - intros w ->. reflexivity.
Qed.

(** C10: in the matrix that [learn] hands to the solver, a non-terminal
    transition enters with the features of its successor state
    [new_state t] taken at the action that [act] returns for the current
    state [state t]. *)
Theorem lspi_successor_features (a : Agent) (batch : list (Transition Observation))
    (i j : nat) :
  (i < size)%nat -> (j < size)%nat ->
  entry (fst (system a batch)) i j
  == (if (i =? j)%nat then 1 # 10 else 0)
     + sum (map (fun t =>
                   nth i (evaluate (state t) (action t)) 0
                   * (nth j (evaluate (state t) (action t)) 0
                      - gamma a * (if done t then 0
                                   else nth j (evaluate (new_state t) (act a (state t))) 0)))
              batch).
Proof.
  intros Hi Hj. rewrite system_entry by assumption.
  apply Qplus_comp; [reflexivity|]. apply sum_ext.
  intros t _. unfold contribution, phi_sa, phi_sprime.
  destruct (done t); simpl; [|reflexivity].
  unfold zeros. rewrite nth_repeat. reflexivity.
Qed.

End Agent.
End LSPIFacts.

(** ** The exploration schedules *)

Module ExpScheduleFacts.
Import ExpSchedule.
Local Open Scope R_scope.

Lemma exponent_decreases (n : nat) :
  -1 * INR (S n) / eps_decay < -1 * INR n / eps_decay.
Proof.
  rewrite S_INR. unfold eps_decay. lra.
Qed.

(** The threshold never grows from one call to the next. *)
Lemma eps_threshold_antitone (n : nat) : eps_threshold (S n) <= eps_threshold n.
Proof.
  unfold eps_threshold.
  pose proof (exp_increasing _ _ (exponent_decreases n)) as Hexp.
  unfold eps_start, eps_end in *. nra.
Qed.

(** It stays above [eps_end]. *)
Lemma eps_threshold_above (n : nat) : eps_end < eps_threshold n.
Proof.
  unfold eps_threshold.
  pose proof (exp_pos (-1 * INR n / eps_decay)) as Hpos.
  unfold eps_start, eps_end in *. nra.
Qed.

(** The decaying factor is eventually below any positive bound. *)
Lemma decay_factor_small (bound : R) :
  0 < bound ->
  exists N : nat, forall n, (N <= n)%nat -> exp (-1 * INR n / eps_decay) < bound.
Proof.
  intros Hb.
  destruct (archimed (eps_decay / bound)) as [Hup _].
  assert (Hk : 0 < eps_decay / bound).
  { apply Rdiv_lt_0_compat; [unfold eps_decay; lra | exact Hb]. }
  assert (Hz : (0 < up (eps_decay / bound))%Z) by (apply lt_IZR; lra).
  exists (Z.to_nat (up (eps_decay / bound))). intros n Hn.
  assert (Hn' : IZR (up (eps_decay / bound)) <= INR n).
  { apply le_INR in Hn. rewrite INR_IZR_INZ, Z2Nat.id in Hn by lia. exact Hn. }
  set (x := INR n / eps_decay).
  assert (Hx : / bound < x).
  { unfold x. apply Rmult_lt_reg_r with eps_decay; [unfold eps_decay; lra|].
    replace (INR n / eps_decay * eps_decay) with (INR n)
      by (unfold eps_decay; field).
    replace (/ bound * eps_decay) with (eps_decay / bound) by (field; lra).
    lra. }
  assert (Hinv : 0 < / bound) by now apply Rinv_0_lt_compat.
  replace (-1 * INR n / eps_decay) with (- x) by (unfold x, eps_decay; field).
  rewrite exp_Ropp.
  pose proof (exp_ineq1_le x) as Hexp.
  rewrite <- (Rinv_inv bound).
  apply Rinv_lt_contravar; [|lra].
  apply Rmult_lt_0_compat; lra.
Qed.

(** It converges to [eps_end]. *)
Lemma eps_threshold_converges : Un_cv eps_threshold eps_end.
Proof.
  intros eps Heps.
  destruct (decay_factor_small eps) as [N HN]; [lra|].
  exists N. intros n Hn. specialize (HN n Hn).
  pose proof (exp_pos (-1 * INR n / eps_decay)) as Hpos.
  unfold Rdist, eps_threshold.
  rewrite Rabs_pos_eq; unfold eps_start, eps_end in *; nra.
Qed.

(** X1: the exponential schedule of the Atari agents: from one [act] call to
    the next the threshold does not grow, it is never below [eps_end], and
    it converges to [eps_end] as the calls go on. *)
Theorem exp_schedule_properties :
  (forall n, eps_threshold (S n) <= eps_threshold n) /\
  (forall n, eps_end <= eps_threshold n) /\
  Un_cv eps_threshold eps_end.
Proof.
  split; [exact eps_threshold_antitone|].
  split; [|exact eps_threshold_converges].
  intros n. apply Rlt_le, eps_threshold_above.
Qed.

End ExpScheduleFacts.

Module ExactLinearScheduleFacts.
Import ExactLinearSchedule.
Local Open Scope Q_scope.

Lemma eps_decay_value : eps_decay == 94 # 10000000.
Proof. reflexivity. Qed.

(** While fewer than 100000 decrements were made, the next call makes
    one more. *)
Lemma exact_after_linear (n m : nat) (eps : Q) :
  (m + n <= Z.to_nat 100000)%nat ->
  eps == eps_start - inject_Z (Z.of_nat m) * eps_decay ->
  after n eps == eps_start - inject_Z (Z.of_nat (m + n)) * eps_decay.
Proof.
  revert m eps. induction n as [|n IH]; intros m eps Hle Heps; simpl.
  - rewrite Nat.add_0_r. exact Heps.
  - assert (Hm : inject_Z (Z.of_nat m) < 100000) by (unfold Qlt; simpl; lia).
    assert (Hd : decay eps = eps - eps_decay).
    { unfold decay. destruct (Qlt_le_dec eps_end eps) as [|Hc]; [reflexivity|].
      exfalso. rewrite Heps, eps_decay_value in Hc.
      unfold eps_start, eps_end in Hc. Lqa.lra. }
    rewrite Hd. replace (m + S n)%nat with (S m + n)%nat by lia.
    apply IH; [lia|].
    rewrite Heps, Nat2Z.inj_succ. unfold Z.succ. rewrite inject_Z_plus. ring.
Qed.

Lemma exact_after_at_end (n : nat) (eps : Q) : eps == eps_end -> after n eps = eps.
Proof.
  intros Heps. induction n as [|n IH]; simpl; [reflexivity|].
  assert (Hd : decay eps = eps).
  { unfold decay. destruct (Qlt_le_dec eps_end eps) as [Hc|]; [|reflexivity].
    exfalso. rewrite Heps in Hc. now apply Qlt_irrefl in Hc. }
  now rewrite Hd.
Qed.

Lemma exact_after_add (n m : nat) (eps : Q) : after (n + m) eps = after m (after n eps).
Proof.
  revert eps. induction n as [|n IH]; intros eps; simpl; [reflexivity | apply IH].
Qed.

(** In exact arithmetic the threshold reaches [eps_end] with the 100000th
    call and stays there. *)
Lemma exact_threshold_settles (n : nat) :
  (Z.to_nat 100000 <= n)%nat -> after n eps_start == eps_end.
Proof.
  intros Hn.
  assert (Hend : after (Z.to_nat 100000) eps_start == eps_end).
  { rewrite (exact_after_linear (Z.to_nat 100000) 0) by (simpl; auto; ring).
    replace (Z.of_nat (0 + Z.to_nat 100000)) with 100000%Z by lia. reflexivity. }
  replace n with (Z.to_nat 100000 + (n - Z.to_nat 100000))%nat by lia.
  rewrite exact_after_add, exact_after_at_end; assumption.
Qed.

End ExactLinearScheduleFacts.

Module LinearScheduleFacts.
Import LinearSchedule.
Local Open Scope float_scope.

Lemma well_behaved_sound (k : nat) (eps : float) :
  well_behaved k eps = true ->
  forall i, (i < k)%nat ->
    (after (S i) eps <=? after i eps) = true /\
    (eps_end - eps_decay <=? after (S i) eps) = true.
Proof.
  revert eps. induction k as [|k IH]; intros eps Hwb i Hi; [lia|].
  simpl in Hwb. apply andb_prop in Hwb as [Hwb Hrest].
  apply andb_prop in Hwb as [Hle Hlow].
  destruct i as [|i].
  - simpl. auto.
  - change (after (S (S i)) eps) with (after (S i) (decay eps)).
    change (after (S i) eps) with (after i (decay eps)).
    apply IH; [exact Hrest | lia].
Qed.

(** The constants are the binary64 numbers nearest to 0.99, 0.05 and
    their difference over 100000. *)
Lemma constants_bits :
  eps_start = 0x1.fae147ae147aep-1 /\ eps_end = 0x1.999999999999ap-5 /\
  eps_decay = 0x1.3b69629a290b9p-17.
Proof. vm_compute. repeat split. Qed.

Lemma first_calls_well_behaved : well_behaved calls_to_settle eps_start = true.
Proof. vm_compute. reflexivity. Qed.

Lemma after_calls_to_settle : after calls_to_settle eps_start = settled.
Proof. vm_compute. reflexivity. Qed.

Lemma settled_is_fixed : decay settled = settled.
Proof. vm_compute. reflexivity. Qed.

Lemma after_settled (n : nat) : after n settled = settled.
Proof.
  induction n as [|n IH]; simpl; [reflexivity|].
  now rewrite settled_is_fixed.
Qed.

Lemma after_add (n m : nat) (eps : float) : after (n + m) eps = after m (after n eps).
Proof.
  revert eps. induction n as [|n IH]; intros eps; simpl; [reflexivity | apply IH].
Qed.

Lemma after_late (n : nat) :
  (calls_to_settle <= n)%nat -> after n eps_start = settled.
Proof.
  intros Hn.
  replace n with (calls_to_settle + (n - calls_to_settle))%nat by lia.
  rewrite after_add, after_calls_to_settle. apply after_settled.
Qed.

(** The stored threshold never grows from one call to the next. *)
Lemma after_antitone (n : nat) : (after (S n) eps_start <=? after n eps_start) = true.
Proof.
  destruct (Nat.lt_ge_cases n calls_to_settle) as [Hlt | Hge].
  - now apply (well_behaved_sound _ _ first_calls_well_behaved).
  - rewrite !after_late by lia. vm_compute. reflexivity.
Qed.

(** It never falls below [eps_end - eps_decay]. *)
Lemma after_lower_bound (n : nat) : (eps_end - eps_decay <=? after (S n) eps_start) = true.
Proof.
  destruct (Nat.lt_ge_cases n calls_to_settle) as [Hlt | Hge].
  - now apply (well_behaved_sound _ _ first_calls_well_behaved).
  - rewrite !after_late by lia. vm_compute. reflexivity.
Qed.

(** X2: the linear schedule of the lunar [DQNAgent]: from one [act] call to
    the next the threshold does not grow, and it is never below
    [eps_end - eps_decay]. *)
Theorem linear_schedule_properties (n : nat) :
  (after (S n) eps_start <=? after n eps_start) = true /\
  (eps_end - eps_decay <=? after (S n) eps_start) = true.
Proof.
  split; [apply after_antitone | apply after_lower_bound].
Qed.

(** From the 100000th call on, the stored threshold is below
    [eps_end]. *)
Lemma after_late_below (n : nat) :
  (calls_to_settle <= n)%nat ->
  after n eps_start = settled /\ (after n eps_start <? eps_end) = true.
Proof.
  intros Hn. rewrite after_late by exact Hn.
  split; [reflexivity|]. vm_compute. reflexivity.
Qed.

End LinearScheduleFacts.

Section ExplorationClaims.
Context `{Approximator}.

(** C5, at the lunar [DQNAgent]: once [act] was called 100000 times, in
    whatever sequence of [act] and [learn] calls, the threshold the agent
    explores with is the binary64 number 0.04999999999773011, strictly
    below [eps_end] = 0.05, and further calls leave it there. *)
Theorem lunar_threshold_below_eps_end (n : nat) (cfg : Config)
    (policy0 target0 : Params) (calls : list Call) (a : Agent) :
  run (init LunarDQNAgent n cfg policy0 target0) calls = Ok a ->
  (LinearSchedule.calls_to_settle <= acts calls)%nat ->
  eps_threshold a = LinearSchedule.settled /\
  PrimFloat.ltb (eps_threshold a) LinearSchedule.eps_end = true.
Proof.
  intros Hrun Hacts.
  rewrite (run_lunar_threshold calls (init LunarDQNAgent n cfg policy0 target0) a
             eq_refl Hrun).
  simpl.
  now apply LinearScheduleFacts.after_late_below.
Qed.

End ExplorationClaims.

(** ** Worked examples *)

Module Worked.
Import Tensor Examples.
Local Open Scope Q_scope.



Lemma double_dqn_learn_target_witness :
  let a := set_target (H := tabular) (init (H := tabular) AtariDoubleDQNAgent 2 cfg [1; 3] [1; 3]) [7; 5] in
  exists expected,
    learn a [step 1 false; step 2 true] []
    = optimize a (dqn_loss (H := tabular) [step 1 false; step 2 true] expected) (mean expected) /\
    Forall2 (double_target (999 # 1000) (policy a) (target a))
      [step 1 false; step 2 true] expected.
Proof.
  intros a.
  apply (double_dqn_learn_target (H := tabular) a).
  - reflexivity.
  - intros t _ _. vm_compute. discriminate.
Defined.

(** The Double-DQN target of the first transition above bootstraps from
    the target network's value 5 of the policy's greedy action 1, not from
    the target network's maximum 7. *)
Lemma double_dqn_expected_example :
  double_dqn_expected (H := tabular) (999 # 1000) [1; 3] [7; 5]
    [step 1 false; step 2 true]
  = [5 * (999 # 1000) + 1; 0 * (999 # 1000) + 2].
Proof. reflexivity. Qed.

Lemma atari_dqn_target_not_cloned_witness :
  policy (init (H := tabular) AtariDQNAgent 2 cfg [0; 1] [1; 0]) = [0; 1] /\
  target (init (H := tabular) AtariDQNAgent 2 cfg [0; 1] [1; 0]) = [1; 0] /\
  target (init (H := tabular) AtariDQNAgent 2 cfg [0; 1] [1; 0])
    <> policy (init (H := tabular) AtariDQNAgent 2 cfg [0; 1] [1; 0]).
Proof.
  apply (atari_dqn_target_not_cloned (H := tabular) 2 cfg [0; 1] [1; 0]).
  discriminate.
Defined.

Lemma target_update_rule_witness :
  let a := init (H := tabular) OfflineDQNAgent 2 cfg [0; 0] [5; 5] in
  (exists a',
     learn a [step 1 false] [] = Ok a' /\
     target a' = (if (counter a mod target_update_steps a =? 0)%nat
                  then policy a' else target a) /\
     counter a' = (if offline (name a) then S (counter a) else counter a)) /\
  (forall s,
     target (act a s) = target a /\ policy (act a s) = policy a /\
     match name a with
     | AtariDQNAgent | AtariDoubleDQNAgent => counter (act a s) = S (counter a)
     | LunarDQNAgent => True
     | _ => counter (act a s) = counter a
     end).
Proof.
  intros a.
  apply (target_update_rule (H := tabular) a [step 1 false] []).
  - discriminate.
  - left. reflexivity.
  - intros Hname. discriminate Hname.
Defined.

(** C2 as stated fails.  An [OfflineDQNAgent] with [TARGET_UPDATE_INTERVAL]
    2 reloads its target in the first [learn] call, when [batches_done] is
    0, and not in the second: after the second call the policy holds [2; 2]
    and the target still [1; 1].  An Atari [DoubleDQNAgent] that acts once
    and then learns 2000 times finds [steps_done] at 1 in every [learn] and
    never reloads its target. *)
Lemma target_sync_counterexample :
  (exists a',
     run (H := tabular) (init (H := tabular) OfflineDQNAgent 2 cfg [0; 0] [5; 5])
       [Learn (H := tabular) [step 1 false] []; Learn (H := tabular) [step 1 false] []]
     = Ok a' /\
     target_update_steps a' = 2%nat /\
     policy a' = [0 + 1 + 1; 0 + 1 + 1] /\ target a' = [0 + 1; 0 + 1] /\
     target a' <> policy a') /\
  (exists a',
     run (H := tabular) (init (H := tabular) AtariDoubleDQNAgent 2 cfg [0; 0] [5; 5])
       (Act (H := tabular) tt :: repeat (Learn (H := tabular) [step 1 false] []) 2000)
     = Ok a' /\
     target_update_steps a' = 2000%nat /\ steps_done a' = 1%nat /\
     target a' = [0; 0] /\ policy a' = [2000; 2000] /\
     target a' <> policy a').
Proof.
  split.
  - eexists. split; [reflexivity|]. repeat split. discriminate.
  - eexists. split; [vm_compute; reflexivity|]. repeat split. discriminate.
Qed.

(** One non-terminal transition of the block features: state 1, action 0,
    successor state 2. *)
Definition lspi_agent : LSPI.Agent := LSPI.mkAgent None 2 [0; 0; 0; 0] 1.

Definition lspi_batch : list (Transition Q) := [mkTransition 1 0%nat 0 false 2].

(** C8 as stated fails: for this batch, whose only transition has
    done = false, entry (0, 1) of the matrix is -1 and entry (1, 0) is 0. *)
Lemma lstdq_matrix_not_symmetric :
  (forall t, In t lspi_batch -> done t = false) /\
  fst (LSPI.system (H := blocks) lspi_agent lspi_batch)
  = [[(1 # 10) + 1 * (1 - 1 * 1); 0 + 1 * (1 - 1 * 2); 0 + 1 * (0 - 1 * 0); 0 + 1 * (0 - 1 * 0)];
     [0 + 1 * (1 - 1 * 1); (1 # 10) + 1 * (1 - 1 * 2); 0 + 1 * (0 - 1 * 0); 0 + 1 * (0 - 1 * 0)];
     [0 + 0 * (1 - 1 * 1); 0 + 0 * (1 - 1 * 2); (1 # 10) + 0 * (0 - 1 * 0); 0 + 0 * (0 - 1 * 0)];
     [0 + 0 * (1 - 1 * 1); 0 + 0 * (1 - 1 * 2); 0 + 0 * (0 - 1 * 0); (1 # 10) + 0 * (0 - 1 * 0)]] /\
  ~ LSPI.symmetric 4 (fst (LSPI.system (H := blocks) lspi_agent lspi_batch)).
Proof.
  split; [|split].
  - intros t [<- | []]. reflexivity.
  - reflexivity.
  - intros Hsym. specialize (Hsym 0%nat 1%nat). vm_compute in Hsym.
    assert (Hlt : (0 < 4)%nat /\ (1 < 4)%nat) by lia.
    destruct Hlt as [H0 H1]. specialize (Hsym H0 H1). discriminate.
Qed.

Lemma lstdq_matrix_symmetry_witness :
  LSPI.symmetric 4
    (fst (LSPI.system (H := blocks) lspi_agent [mkTransition 1 0%nat 3 true 2])).
Proof.
  apply (LSPIFacts.lstdq_matrix_symmetry (H := blocks) lspi_agent).
  left. intros t [<- | []]. reflexivity.
Defined.

(** [learn] of the LSPI agent on one terminal transition, no writer
    attached: the system is diagonal, the solver returns 30/11 for the
    first weight, the weights are replaced, and the call to [add_scalar]
    raises. *)
Lemma lspi_learn_raises_example :
  exists a',
    LSPI.learn (H := blocks) (H0 := algebra) lspi_agent [mkTransition 0 0%nat 3 true 2]
    = Raise AttributeError a' /\
    LSPI.summary_writer a' = None /\
    Forall2 Qeq (LSPI.weights a') [30 # 11; 0; 0; 0].
Proof.
  eexists. split; [vm_compute; reflexivity|]. split; [reflexivity|].
  repeat constructor.
Qed.

Lemma lspi_learn_without_writer_witness :
  returns (LSPI.learn (H := blocks) (H0 := algebra) lspi_agent
             [mkTransition 0 0%nat 3 true 2]) = false /\
  forall new_weights,
    LSPI.solve (LinearAlgebra := algebra)
      (fst (LSPI.system (H := blocks) lspi_agent [mkTransition 0 0%nat 3 true 2]))
      (snd (LSPI.system (H := blocks) lspi_agent [mkTransition 0 0%nat 3 true 2]))
    = Some new_weights ->
    LSPI.learn (H := blocks) (H0 := algebra) lspi_agent [mkTransition 0 0%nat 3 true 2]
    = Raise AttributeError
        (LSPI.mkAgent None (LSPI.action_space lspi_agent) new_weights
           (LSPI.gamma lspi_agent)).
Proof.
  apply (LSPIFacts.lspi_learn_without_writer (H := blocks) (H0 := algebra) lspi_agent).
  reflexivity.
Defined.

(** An agent whose greedy action is 0 where the observation is positive
    and 1 where it is negative, and a transition from 1 to -1. *)
Definition lspi_sign_agent : LSPI.Agent := LSPI.mkAgent None 2 [0; 1; 0; -1] 1.

Definition lspi_sign_step : Transition Q := mkTransition 1 0%nat 0 false (-1).

(** The successor features are those of action 0, the greedy action of
    the current state 1, although the greedy action of the successor state
    -1 is 1. *)
Lemma lspi_bootstrap_action_example :
  LSPI.act (H := blocks) lspi_sign_agent (state lspi_sign_step) = 0%nat /\
  LSPI.act (H := blocks) lspi_sign_agent (new_state lspi_sign_step) = 1%nat /\
  LSPI.phi_sprime (H := blocks) lspi_sign_agent lspi_sign_step = [1; -1; 0; 0] /\
  LSPI.evaluate (BasisFunction := blocks) (new_state lspi_sign_step) 1 = [0; 0; 1; -1].
Proof.
  repeat split.
Qed.

Lemma lspi_successor_features_witness :
  LSPI.entry (fst (LSPI.system (H := blocks) lspi_sign_agent [lspi_sign_step])) 0 1
  == 0 + Tensor.sum
           (map (fun t : Transition Q =>
                   nth 0 (block_features (state t) (action t)) 0
                   * (nth 1 (block_features (state t) (action t)) 0
                      - LSPI.gamma lspi_sign_agent
                        * (if done t then 0
                           else nth 1 (block_features (new_state t)
                                         (LSPI.act (H := blocks) lspi_sign_agent (state t))) 0)))
              [lspi_sign_step]).
Proof.
  apply (LSPIFacts.lspi_successor_features (H := blocks) lspi_sign_agent
           [lspi_sign_step] 0 1); simpl; lia.
Defined.

(** A draw with a nonzero entry is normalised to weights that sum to 1. *)
Lemma rem_alpha_example :
  rem_alpha [1 # 2; 0; 1 # 4]
  = Some [(1 # 2) / ((1 # 2) + (0 + ((1 # 4) + 0)));
          0 / ((1 # 2) + (0 + ((1 # 4) + 0)));
          (1 # 4) / ((1 # 2) + (0 + ((1 # 4) + 0)))].
Proof. reflexivity. Qed.

(** 100000 calls of [act] on a fresh lunar [DQNAgent]. *)
Lemma lunar_threshold_below_eps_end_witness :
  let a0 := init (H := tabular) LunarDQNAgent 2 cfg [1; 3] [0; 0] in
  let a := set_eps_threshold a0 LinearSchedule.settled in
  eps_threshold a = LinearSchedule.settled /\
  PrimFloat.ltb (eps_threshold a) LinearSchedule.eps_end = true.
Proof.
  intros a0 a.
  apply (lunar_threshold_below_eps_end (H := tabular) 2 cfg [1; 3] [0; 0]
           (repeat (Act (H := tabular) tt) (Z.to_nat 100000)) a).
  - vm_compute. reflexivity.
  - apply Nat.leb_le. vm_compute. reflexivity.
Defined.


Lemma learn_without_writer_witness :
  exists a',
    learn (H := tabular) (init (H := tabular) QROffDQNAgent 2 cfg [1; 3] [0; 0])
      [step 1 false; step 2 true] [] = Ok a' /\
    summary_writer a' = None.
Proof.
  apply (learn_without_writer (H := tabular)
           (init (H := tabular) QROffDQNAgent 2 cfg [1; 3] [0; 0])).
  - reflexivity.
  - discriminate.
  - intros _. discriminate.
Defined.

Lemma lunar_target_equals_policy_witness :
  let a := left_state
             (call (H := tabular) (init (H := tabular) LunarDQNAgent 2 cfg [1; 3] [0; 0])
                (Learn (H := tabular) [step 1 false] [])) in
  target a = policy a /\ steps_done a = 0%nat.
Proof.
  intros a.
  apply (lunar_target_equals_policy (H := tabular) 2 cfg [1; 3] [0; 0]).
  apply reach_call, reach_init.
Defined.

End Worked.

(** ** Network geometry *)

Module NetworkFacts.
Import Networks.
Local Open Scope Z_scope.

(** X6: [size_out] counts the positions of a window: with a positive
    stride and an input at least as large as the kernel, that many windows
    fit and one more would not. *)
Theorem size_out_counts_windows (size k s : Z) :
  0 < s -> k <= size ->
  1 <= size_out size k s /\
  (size_out size k s - 1) * s + k <= size < size_out size k s * s + k.
Proof.
  intros Hs Hk. unfold size_out.
  replace (size - (k - 1) - 1) with (size - k) by lia.
  pose proof (Z.mul_div_le (size - k) s Hs).
  pose proof (Z.mul_succ_div_gt (size - k) s Hs).
  pose proof (Z.div_pos (size - k) s). nia.
Qed.

(** X7: the two convolutions leave at least one position exactly when the
    side is 20 or more, and none between 12 and 19; below 12 the computed
    count is negative, so that two short sides give a positive
    [linear_input_size] although no window fits.  The height and the
    width enter [linear_input_size] alike. *)
Theorem linear_input_size_sign (h w : Z) :
  (1 <= conv_w h <-> 20 <= h) /\
  (conv_w h = 0 <-> 12 <= h < 20) /\
  (h < 12 -> w < 12 -> 0 < linear_input_size h w) /\
  (20 <= h -> 20 <= w -> 0 < linear_input_size h w) /\
  linear_input_size h w = linear_input_size w h.
Proof.
  unfold linear_input_size, conv_w, conv_h, size_out. simpl.
  repeat split; intros; Z.div_mod_to_equations; nia.
Qed.

End NetworkFacts.

(** ** The evaluation loop of the offline driver *)

Module OfflineFacts.
Import Offline.
Local Open Scope Q_scope.

Lemma py_sum_snoc (xs : list Q) (x : Q) : py_sum (xs ++ [x]) = py_sum xs + x.
Proof. unfold py_sum. now rewrite fold_left_app. Qed.

Lemma fold_left_Qplus_from (xs : list Q) (a : Q) :
  fold_left Qplus xs a == a + py_sum xs.
Proof.
  unfold py_sum. revert a. induction xs as [|x xs IH]; intros a; simpl.
  - ring.
  - rewrite IH, (IH (0 + x)). ring.
Qed.

Lemma py_sum_cons (x : Q) (xs : list Q) : py_sum (x :: xs) == x + py_sum xs.
Proof.
  unfold py_sum at 1. simpl. rewrite fold_left_Qplus_from. ring.
Qed.

Lemma episode_ends_cons (r : Q) (d : bool) (env : list (Q * bool)) :
  episode_ends ((r, d) :: env) = ((if d then 1 else 0) + episode_ends env)%nat.
Proof. unfold episode_ends. simpl. destruct d; reflexivity. Qed.

(** What the loop has done when it stops or runs out of record. *)
Lemma eval_loop_gen (E : nat) (env : list (Q * bool)) (st : Evaluation) :
  (counter st <= E)%nat ->
  List.length (mean_reward st) = counter st ->
  exists consumed,
    env = consumed ++ snd (eval_loop E env st) /\
    counter (fst (eval_loop E env st))
    = Nat.min E (counter st + episode_ends env) /\
    List.length (mean_reward (fst (eval_loop E env st)))
    = counter (fst (eval_loop E env st)) /\
    episode_ends consumed = (counter (fst (eval_loop E env st)) - counter st)%nat /\
    py_sum (mean_reward (fst (eval_loop E env st)))
    + py_sum (rewards (fst (eval_loop E env st)))
    == py_sum (mean_reward st) + py_sum (rewards st) + py_sum (map fst consumed) /\
    ((E <= counter st + episode_ends env)%nat ->
     rewards (fst (eval_loop E env st)) = [] \/ fst (eval_loop E env st) = st).
Proof.
  revert st. induction env as [|[r d] rest IH]; intros st Hle Hlen.
  - exists []. simpl. unfold episode_ends. simpl.
    repeat split; try lia; try congruence; auto. unfold py_sum. simpl. ring.
  - cbn [eval_loop]. destruct (counter st <? E)%nat eqn:Hlt.
    + apply Nat.ltb_lt in Hlt.
      destruct (IH (eval_step st (r, d)))
        as (consumed & Henv & Hcount & Hlen' & Hends & Hsum & Hrew).
      { simpl. destruct d; simpl; lia. }
      { simpl. destruct d; simpl; [|exact Hlen].
        rewrite length_app. simpl. lia. }
      exists ((r, d) :: consumed).
      rewrite episode_ends_cons.
      assert (Hc : counter (eval_step st (r, d))
                   = ((if d then 1 else 0) + counter st)%nat)
        by (simpl; destruct d; reflexivity).
      rewrite Hc in Hcount, Hends, Hrew.
      split; [simpl; f_equal; exact Henv|].
      split; [rewrite Hcount; f_equal; lia|].
      split; [exact Hlen'|].
      split; [rewrite episode_ends_cons, Hends, Hcount; destruct d; lia|].
      split.
      * rewrite Hsum. simpl map. rewrite py_sum_cons.
        simpl. destruct d; simpl; rewrite ?py_sum_snoc.
        all: change (py_sum []) with 0; ring.
      * intros Hfin. left.
        destruct Hrew as [Hnil | Hsame]; [lia | exact Hnil |].
        rewrite Hsame. destruct d; [reflexivity|].
        exfalso. rewrite Hsame in Hcount. simpl in Hcount. lia.
    + apply Nat.ltb_ge in Hlt. exists []. simpl.
      repeat split; try lia; try congruence; auto.
      * rewrite Nat.sub_diag. reflexivity.
      * change (py_sum []) with 0. ring.
Qed.

(** The loop exits where [eval_loop] stops with a full counter. *)
Lemma eval_run_spec (E : nat) (env : list (Q * bool)) (st : Evaluation) :
  (counter st <= E)%nat ->
  match eval_run E env st with
  | None => (counter st + episode_ends env < E)%nat
  | Some r =>
      eval_loop E env st = r /\ counter (fst r) = E /\
      (E <= counter st + episode_ends env)%nat
  end.
Proof.
  revert st. induction env as [|[r d] rest IH]; intros st Hle.
  - cbn [eval_run eval_loop]. unfold episode_ends. simpl.
    destruct (counter st <? E)%nat eqn:Hlt.
    + apply Nat.ltb_lt in Hlt. lia.
    + apply Nat.ltb_ge in Hlt. simpl. repeat split; lia.
  - cbn [eval_run eval_loop]. rewrite episode_ends_cons.
    destruct (counter st <? E)%nat eqn:Hlt.
    + apply Nat.ltb_lt in Hlt.
      assert (Hc : counter (eval_step st (r, d))
                   = ((if d then 1 else 0) + counter st)%nat)
        by (simpl; destruct d; reflexivity).
      specialize (IH (eval_step st (r, d))). rewrite Hc in IH.
      destruct (eval_run E rest (eval_step st (r, d))) as [res|].
      * destruct IH as (Hloop & Hcount & Hends); [destruct d; lia|].
        repeat split; try assumption. lia.
      * assert (Hfew : ((if d then 1 else 0) + counter st + episode_ends rest < E)%nat)
          by (apply IH; destruct d; lia).
        lia.
    + apply Nat.ltb_ge in Hlt. simpl. repeat split; lia.
Qed.

(** X8: the evaluation loop exits on the records of the environment that
    hold at least [EVAL_EPISODES] episode ends, and on no others: on a
    shorter record it is still running when the record ends.  When it
    exits it has read from the record exactly [EVAL_EPISODES] episode
    ends, it holds one return per episode, and no reward is left
    pending. *)
Theorem eval_loop_counts_episodes (E : nat) (env : list (Q * bool)) :
  (eval_run E env start = None <-> (episode_ends env < E)%nat) /\
  (forall st rest,
     eval_run E env start = Some (st, rest) ->
     exists consumed,
       env = consumed ++ rest /\
       episode_ends consumed = E /\
       counter st = E /\
       List.length (mean_reward st) = E /\
       rewards st = []).
Proof.
  pose proof (eval_run_spec E env start) as Hspec.
  assert (Hzero : (counter start <= E)%nat) by (simpl; lia).
  specialize (Hspec Hzero). simpl in Hspec. split.
  - destruct (eval_run E env start) as [res|]; split; intros Hx;
      try discriminate; try assumption; try reflexivity.
    destruct Hspec as (_ & _ & Hends). lia.
  - intros st rest Hrun. rewrite Hrun in Hspec.
    destruct Hspec as (Hloop & Hcount & Hends). simpl in Hcount.
    destruct (eval_loop_gen E env start)
      as (consumed & Henv & _ & Hlen & Hcons & _ & Hrew);
      [simpl; lia | reflexivity |].
    rewrite Hloop in Henv, Hlen, Hcons, Hrew. simpl in Henv, Hlen, Hcons, Hrew.
    exists consumed. repeat split; try congruence.
    + rewrite Hcons, Hcount. lia.
    + destruct (Hrew Hends) as [Hnil | Hsame]; [exact Hnil|].
      now rewrite Hsame.
Qed.

(** X9: the episode returns of the evaluation loop and the rewards still
    pending add up to the rewards of the steps it read. *)
Theorem eval_loop_accounting (E : nat) (env : list (Q * bool)) :
  exists consumed,
    env = consumed ++ snd (eval_loop E env start) /\
    py_sum (mean_reward (fst (eval_loop E env start)))
    + py_sum (rewards (fst (eval_loop E env start)))
    == py_sum (map fst consumed).
Proof.
  destruct (eval_loop_gen E env start)
    as (consumed & Henv & _ & _ & _ & Hsum & _);
    [simpl; lia | reflexivity |].
  exists consumed. split; [exact Henv|].
  rewrite Hsum. unfold py_sum at 1 2. simpl. ring.
Qed.

(** X10: every action an agent with three actions can return is a key of
    the action map, no larger index is, and the map sends different actions
    to different environment actions. *)
Theorem action_map_domain (action : nat) :
  ((action < action_space)%nat <-> action_map action <> None) /\
  forall other, action_map action <> None ->
                action_map action = action_map other -> action = other.
Proof.
  unfold action_space. split.
  - destruct action as [|[|[|n]]]; simpl; split; intros; try lia; congruence.
  - intros other.
    destruct action as [|[|[|n]]], other as [|[|[|m]]]; simpl; congruence.
Qed.

End OfflineFacts.

(** ** The greedy action *)

Module GreedyFacts.
Import Tensor TensorFacts.
Local Open Scope Q_scope.

(** The scan behind [argmax] keeps the first index of the largest value
    seen: every earlier value is strictly smaller. *)
Lemma argmax_from_first (row seen : list Q) (best : Q) (best_i : nat) :
  (best_i < List.length seen)%nat ->
  nth best_i seen 0 = best ->
  Forall (fun x => x <= best) seen ->
  (forall j, (j < best_i)%nat -> nth j seen 0 < best) ->
  let r := argmax_from best best_i (List.length seen) row in
  forall j, (j < r)%nat -> nth j (seen ++ row) 0 < nth r (seen ++ row) 0.
Proof.
  revert seen best best_i.
  induction row as [|x xs IH]; intros seen best best_i Hlt Hnth Hall Hfirst; simpl.
  - rewrite app_nil_r, Hnth. exact Hfirst.
  - replace (seen ++ x :: xs) with ((seen ++ [x]) ++ xs) by now rewrite <- app_assoc.
    replace (S (List.length seen)) with (List.length (seen ++ [x]))
      by (rewrite length_app; simpl; lia).
    rewrite Forall_forall in Hall.
    destruct (Qlt_le_dec best x) as [Hbx | Hxb].
    + apply IH.
      * rewrite length_app; simpl; lia.
      * rewrite app_nth2 by lia. now rewrite Nat.sub_diag.
      * apply Forall_app. split.
        -- apply Forall_forall. intros y Hy.
           eapply Qle_trans; [now apply Hall | now apply Qlt_le_weak].
        -- constructor; [apply Qle_refl | constructor].
      * intros j Hj. rewrite app_nth1 by exact Hj.
        eapply Qle_lt_trans; [|exact Hbx]. apply Hall, nth_In, Hj.
    + apply IH.
      * rewrite length_app; simpl; lia.
      * now rewrite app_nth1 by lia.
      * apply Forall_app. split; [now apply Forall_forall|].
        constructor; [exact Hxb | constructor].
      * intros j Hj. rewrite app_nth1 by lia. now apply Hfirst.
Qed.

Lemma argmax_first (row : list Q) (j : nat) :
  (j < argmax row)%nat -> nth j row 0 < nth (argmax row) row 0.
Proof.
  destruct row as [|x xs]; simpl; [lia|].
  pose proof (argmax_from_first xs [x] x 0) as Hfirst. simpl in Hfirst.
  apply Hfirst; [lia | reflexivity | | intros; lia].
  constructor; [apply Qle_refl | constructor].
Qed.

Section Agent.
Context `{Approximator}.

Lemma greedy_action_values (a : Agent) (s : State) :
  greedy_action a s = argmax (greedy_values a s).
Proof.
  unfold greedy_action, greedy_values. destruct (name a); reflexivity.
Qed.

(** X11: the greedy action of [act] is a valid index into the values the
    policy network gives (averaged over heads or quantiles), no value is
    larger than the one at that index, and among equal largest values it
    is the first. *)
Theorem greedy_action_first_best (a : Agent) (s : State) :
  greedy_values a s <> [] ->
  (greedy_action a s < List.length (greedy_values a s))%nat /\
  (forall j, (j < List.length (greedy_values a s))%nat ->
             nth j (greedy_values a s) 0
             <= nth (greedy_action a s) (greedy_values a s) 0) /\
  (forall j, (j < greedy_action a s)%nat ->
             nth j (greedy_values a s) 0
             < nth (greedy_action a s) (greedy_values a s) 0).
Proof.
  intros Hrow. rewrite greedy_action_values.
  destruct (argmax_spec _ Hrow) as [Hlt [_ Hall]].
  split; [exact Hlt|]. split.
  - intros j Hj. rewrite Forall_forall in Hall. apply Hall, nth_In, Hj.
  - intros j Hj. now apply argmax_first.
Qed.

End Agent.

Section LSPIAgent.
Context `{LSPI.BasisFunction}.

(** X12: [act] of the LSPI agent returns an action below [action_space]
    whose linear value, the weights times the features of the state and
    that action, is the largest, and the first of the largest. *)
Theorem lspi_act_first_best (a : LSPI.Agent) (s : LSPI.Observation) :
  LSPI.action_space a <> 0%nat ->
  (LSPI.act a s < LSPI.action_space a)%nat /\
  (forall b, (b < LSPI.action_space a)%nat ->
             LSPI.dot (LSPI.weights a) (LSPI.evaluate s b)
             <= LSPI.dot (LSPI.weights a) (LSPI.evaluate s (LSPI.act a s))) /\
  (forall b, (b < LSPI.act a s)%nat ->
             LSPI.dot (LSPI.weights a) (LSPI.evaluate s b)
             < LSPI.dot (LSPI.weights a) (LSPI.evaluate s (LSPI.act a s))).
Proof.
  intros Hn. unfold LSPI.act.
  set (values := map (fun b => LSPI.dot (LSPI.weights a) (LSPI.evaluate s b))
                   (seq 0 (LSPI.action_space a))).
  assert (Hlen : List.length values = LSPI.action_space a)
    by (unfold values; now rewrite length_map, length_seq).
  assert (Hrow : values <> []).
  { intros Hnil. rewrite Hnil in Hlen. simpl in Hlen. lia. }
  assert (Hnth : forall b, (b < LSPI.action_space a)%nat ->
                           nth b values 0
                           = LSPI.dot (LSPI.weights a) (LSPI.evaluate s b)).
  { intros b Hb. unfold values. now rewrite LSPIFacts.nth_map_seq. }
  destruct (argmax_spec _ Hrow) as [Hlt [_ Hall]].
  rewrite Hlen in Hlt. split; [exact Hlt|]. split.
  - intros b Hb. rewrite <- !Hnth by assumption.
    rewrite Forall_forall in Hall. apply Hall, nth_In. lia.
  - intros b Hb. rewrite <- !Hnth by lia. now apply argmax_first.
Qed.

End LSPIAgent.
End GreedyFacts.

(** ** Targets of the ensemble, mixture and quantile agents *)

Module MixtureFacts.
Import Tensor TensorFacts.
Local Open Scope Q_scope.




Section Agent.
Context `{Approximator}.

(** The three steps that every target computation ends with: mask,
    discount, add the reward. *)
Lemma masked_targets (g : Q) (f : Transition State -> Q)
    (batch : list (Transition State)) :
  add (scale g (mask_zero (map done batch) (map f batch))) (map reward batch)
  = map (fun t => (if done t then 0 else f t) * g + reward t) batch.
Proof.
  unfold mask_zero, scale, add.
  rewrite map2_map, map_map. apply map2_map.
Qed.

(** X14: [learn] of [EnsembleOffDQNAgent] regresses on one row of targets
    per head; in the row of head [h] the target of a transition is its
    reward alone when it is terminal, whichever the head, and otherwise
    the reward plus gamma times the maximum of that head of the target
    network on the next state. *)
Theorem ensemble_learn_target (a : Agent) (batch : list (Transition State))
    (rand : list Q) :
  name a = EnsembleOffDQNAgent ->
  (forall t h, In t batch -> done t = false -> (h < num_heads a)%nat ->
               nth h (head_values (target a) (new_state t)) [] <> []) ->
  exists expected,
    learn a batch rand
    = optimize a (ensemble_loss (num_heads a) batch expected) (mean (List.concat expected)) /\
    List.length expected = num_heads a /\
    forall h, (h < num_heads a)%nat ->
      Forall2 (fun t y =>
                 if done t then y == reward t
                 else exists m,
                     is_max (nth h (head_values (target a) (new_state t)) []) m /\
                     y == reward t + gamma a * m)
        batch (nth h expected []).
Proof.
  intros Hname Hrows. unfold learn. rewrite Hname.
  eexists. split; [reflexivity|]. unfold ensemble_expected. split.
  - now rewrite length_map, length_seq.
  - intros h Hh. rewrite LSPIFacts.nth_map_seq by exact Hh.
    rewrite masked_targets. apply Forall2_map_r.
    intros t Ht. specialize (Hrows t h Ht).
    destruct (done t).
    + ring.
    + eexists. split; [apply row_max_is_max; now apply Hrows | ring].
Qed.

(** X15: [learn] of [REMOffDQNAgent], when the draw can be normalised to
    weights [alpha], regresses for every transition on the reward alone
    when it is terminal, and otherwise on the reward plus gamma times the
    maximum over the actions of the [alpha]-mixture of the target network's
    heads on the next state. *)
Theorem rem_learn_target (a : Agent) (batch : list (Transition State))
    (rand alpha : list Q) :
  name a = REMOffDQNAgent ->
  rem_alpha rand = Some alpha ->
  action_space a <> 0%nat ->
  exists expected,
    learn a batch rand = optimize a (rem_loss alpha batch expected) (mean expected) /\
    Forall2 (fun t y =>
               if done t then y == reward t
               else exists m,
                   is_max (map (fun i =>
                                  mix alpha (map (fun h => gather h i)
                                               (head_values (target a) (new_state t))))
                             (seq 0 (action_space a))) m /\
                   y == reward t + gamma a * m)
      batch expected.
Proof.
  intros Hname Halpha Hn. unfold learn. rewrite Hname, Halpha.
  eexists. split; [reflexivity|]. unfold rem_expected.
  rewrite map_map, masked_targets. apply Forall2_map_r.
  intros t Ht. destruct (done t).
  - ring.
  - eexists. split; [apply row_max_is_max | ring].
    intros Hnil. apply (f_equal (@List.length _)) in Hnil.
    rewrite length_map, length_seq in Hnil. simpl in Hnil. contradiction.
Qed.

(** X16: on a batch of one transition [learn] of [QROffDQNAgent] raises
    [IndexError] before it computes a loss, and leaves the object as it
    was.  On any other batch it regresses, for every transition, on one
    target per quantile: the reward plus gamma times the quantile of the
    target network for the next state and the action [a] whose mean over
    the quantiles is largest, with the bootstrap part zeroed when the
    transition is terminal. *)
Theorem qr_learn_target (a : Agent) (batch : list (Transition State)) (rand : list Q) :
  name a = QROffDQNAgent ->
  (List.length batch = 1%nat -> learn a batch rand = Raise IndexError a) /\
  (List.length batch <> 1%nat ->
   exists expected delta,
     learn a batch rand
     = optimize a (qr_loss batch expected delta) (mean (List.concat expected)) /\
     Forall2 (fun t row =>
                let next := quantile_values (target a) (new_state t) in
                let best := argmax (map mean next) in
                Forall2 (fun z y => y == reward t + gamma a * (if done t then 0 else z))
                  (nth best next []) row /\
                (next <> [] ->
                 (best < List.length next)%nat /\
                 is_max (map mean next) (mean (nth best next []))))
       batch expected).
Proof.
  intros Hname. unfold learn. rewrite Hname. split.
  - intros Hone. destruct batch as [|t [|u rest]]; try discriminate. reflexivity.
  - intros Hmany.
    assert (Hrows : forall t, In t batch ->
              let next := quantile_values (target a) (new_state t) in
              let best := argmax (map mean next) in
              Forall2 (fun z y => y == reward t + gamma a * (if done t then 0 else z))
                (nth best next [])
                (map (fun v => v * gamma a + reward t)
                   (if done t then map (fun _ => 0) (nth best next [])
                    else nth best next [])) /\
              (next <> [] ->
               (best < List.length next)%nat /\
               is_max (map mean next) (mean (nth best next [])))).
    { intros t _. simpl. split.
      - destruct (done t).
        + rewrite map_map. apply Forall2_map_r. intros z _. simpl. ring.
        + apply Forall2_map_r. intros z _. simpl. ring.
      - intros Hnext.
        assert (Hrow : map mean (quantile_values (target a) (new_state t)) <> []).
        { intros Hnil. apply map_eq_nil in Hnil. contradiction. }
        destruct (argmax_spec _ Hrow) as [Hlt Hmax].
        rewrite length_map in Hlt. split; [exact Hlt|].
        unfold gather in Hmax.
        now rewrite (LSPIFacts.nth_map_default mean _ _ []) in Hmax by exact Hlt. }
    unfold qr_expected.
    destruct batch as [|t [|u rest]]; [| now elim Hmany |];
      eexists; eexists; (split; [reflexivity|]);
      apply Forall2_map_r; exact Hrows.
Qed.

End Agent.
End MixtureFacts.

(** ** The quantile weights, entry by entry *)

Module QuantileFacts.
Import Tensor TensorFacts.
Local Open Scope Q_scope.

Lemma tau_length : List.length tau = num_quantiles.
Proof. reflexivity. Qed.

Lemma tau_nth (q : nat) :
  (q < num_quantiles)%nat ->
  nth q tau 0 == inject_Z (Z.of_nat (q + 1)) / 5 /\ 0 <= nth q tau 0 <= 1.
Proof.
  unfold num_quantiles. intros Hq.
  destruct q as [|[|[|[|[|q]]]]]; try lia; simpl;
    (split; [reflexivity | split; unfold Qle; simpl; lia]).
Qed.

(** One entry of the weight tensor of [learn]. *)
Lemma qr_weight_entry (expected values : list (list Q)) (b q : nat) :
  (b < List.length expected)%nat -> (b < List.length values)%nat ->
  (q < List.length (nth b expected []))%nat ->
  (q < List.length (nth b values []))%nat ->
  (q < num_quantiles)%nat ->
  nth q (nth b (qr_weights tau (qr_delta expected values)) []) 0
  = Qabs (nth q tau 0
          - (if Qlt_le_dec (nth q (nth b expected []) 0 - nth q (nth b values []) 0) 0
             then 1 else 0)).
Proof.
  intros Hbe Hbv Hqe Hqv Hq. unfold qr_weights, qr_delta.
  rewrite (LSPIFacts.nth_map_default _ _ b []) by (rewrite map2_length; lia).
  rewrite (nth_map2 _ expected values b [] []) by assumption.
  rewrite (nth_map2 _ tau _ q 0 0);
    [|rewrite tau_length; exact Hq | rewrite map2_length; lia].
  now rewrite (nth_map2 _ _ _ q 0 0) by assumption.
Qed.

(** X17: the weight that [learn] of [QROffDQNAgent] gives the loss of
    transition [b] at quantile [q] is the quantile level (q + 1) / 5 when
    the target is not below the predicted value, and one minus that level
    when it is. *)
Theorem qr_weight_pinball (expected values : list (list Q)) (b q : nat) :
  (b < List.length expected)%nat -> (b < List.length values)%nat ->
  (q < List.length (nth b expected []))%nat ->
  (q < List.length (nth b values []))%nat ->
  (q < num_quantiles)%nat ->
  nth q (nth b (qr_weights tau (qr_delta expected values)) []) 0
  == if Qlt_le_dec (nth q (nth b expected []) 0 - nth q (nth b values []) 0) 0
     then 1 - inject_Z (Z.of_nat (q + 1)) / 5
     else inject_Z (Z.of_nat (q + 1)) / 5.
Proof.
  intros Hbe Hbv Hqe Hqv Hq.
  rewrite qr_weight_entry by assumption.
  destruct (tau_nth q Hq) as [Hval [Hlo Hhi]].
  destruct (Qlt_le_dec _ 0).
  - rewrite <- Hval. apply Qabs_case; intros; Lqa.lra.
  - rewrite <- Hval. apply Qabs_case; intros; Lqa.lra.
Qed.

(** X18: the highest quantile level is 1, so at the last quantile a
    target below the predicted value gets weight 0: [learn] of
    [QROffDQNAgent] never penalises an overestimate of the top
    quantile. *)
Theorem qr_top_quantile_unpenalised (expected values : list (list Q)) (b : nat) :
  (b < List.length expected)%nat -> (b < List.length values)%nat ->
  (4 < List.length (nth b expected []))%nat ->
  (4 < List.length (nth b values []))%nat ->
  nth 4 (nth b expected []) 0 < nth 4 (nth b values []) 0 ->
  nth 4 (nth b (qr_weights tau (qr_delta expected values)) []) 0 == 0.
Proof.
  intros Hbe Hbv Hqe Hqv Hover.
  rewrite qr_weight_entry by (unfold num_quantiles; auto).
  destruct (Qlt_le_dec _ 0) as [Hneg | Hpos]; [reflexivity|].
  exfalso. Lqa.lra.
Qed.

End QuantileFacts.

(** ** Counters, cadences and their edge cases *)

Section RunFacts.
Context `{Approximator}.
Import Tensor TensorFacts.
Local Open Scope Q_scope.

(** Case analysis on the tests of [optimize] and [optimize_nan],
    innermost first. *)
Ltac optimize_tests :=
  unfold optimize, optimize_nan, update_target, log_metrics, log_nan_metrics,
    bind, counter;
  try destruct (optimizer_step _ _ _); try destruct (nan_step _ _); simpl;
  repeat match goal with
         | |- context [match ?x with _ => _ end] =>
             lazymatch x with
             | context [match _ with _ => _ end] => fail
             | _ => destruct x eqn:?; simpl
             end
         end.

Lemma optimize_ok (a a' : Agent) (loss_fn : Params -> Q) (m : Q) :
  optimize a loss_fn m = Ok a' ->
  target_update_steps a <> 0%nat /\
  batches_done a' = (if offline (name a) then S (batches_done a) else batches_done a).
Proof.
  optimize_tests; intros Hok; try discriminate; injection Hok as <-; simpl;
    split; congruence.
Qed.

Lemma optimize_nan_ok (a a' : Agent) (m : option Q) :
  optimize_nan a m = Ok a' ->
  target_update_steps a <> 0%nat /\
  batches_done a' = (if offline (name a) then S (batches_done a) else batches_done a).
Proof.
  optimize_tests; intros Hok; try discriminate; injection Hok as <-; simpl;
    split; congruence.
Qed.

Lemma learn_ok (a a' : Agent) (batch : list (Transition State)) (rand : list Q) :
  learn a batch rand = Ok a' ->
  target_update_steps a <> 0%nat /\
  batches_done a' = (if offline (name a) then S (batches_done a) else batches_done a) /\
  target a' = (if (counter a mod target_update_steps a =? 0)%nat
               then policy a' else target a).
Proof.
  intros Hok.
  assert (Hqr : name a = QROffDQNAgent -> List.length batch <> 1%nat).
  { intros Hname Hone.
    destruct (learn_shape a batch rand)
      as [(f & m & Hl) | [(Hrem & _) | (_ & _ & Hl)]]; try congruence.
    unfold learn in Hl, Hok. rewrite Hname in Hl, Hok.
    apply (qr_expected_none (gamma a) (target a)) in Hone.
    rewrite Hone in Hok. discriminate. }
  pose proof (learn_networks a batch rand Hqr) as Ht. rewrite Hok in Ht. simpl in Ht.
  assert (Hnb : target_update_steps a <> 0%nat /\
                batches_done a'
                = (if offline (name a) then S (batches_done a) else batches_done a)).
  { destruct (learn_shape a batch rand)
      as [(f & m & Hl) | [(_ & _ & Hl) | (_ & _ & Hl)]]; rewrite Hl in Hok.
    - exact (optimize_ok _ _ _ _ Hok).
    - exact (optimize_nan_ok _ _ _ Hok).
    - discriminate. }
  destruct Hnb as [Hn Hb]. repeat split; try assumption.
  rewrite Ht. destruct (target_update_steps a); [congruence | reflexivity].
Qed.

Lemma act_counters (a : Agent) (s : State) :
  batches_done (act a s) = batches_done a /\
  steps_done (act a s)
  = (match name a with
     | AtariDQNAgent | AtariDoubleDQNAgent => S (steps_done a)
     | _ => steps_done a
     end) /\
  target (act a s) = target a /\ policy (act a s) = policy a.
Proof.
  unfold act. destruct (name a); simpl; auto.
Qed.

Lemma run_counters (calls : list Call) (a a' : Agent) :
  run a calls = Ok a' ->
  name a' = name a /\
  target_update_steps a' = target_update_steps a /\
  steps_done a'
  = (steps_done a + match name a with
                    | AtariDQNAgent | AtariDoubleDQNAgent => acts calls
                    | _ => 0
                    end)%nat /\
  batches_done a'
  = (batches_done a + if offline (name a) then learns calls else 0)%nat.
Proof.
  revert a. induction calls as [|c rest IH]; intros a Hrun.
  - simpl in Hrun. injection Hrun as <-.
    repeat split; destruct (name a); simpl; lia.
  - apply run_cons in Hrun as [Hcall Hrest].
    destruct (IH _ Hrest) as (Hname & Htus & Hsteps & Hbatches).
    pose proof (call_frame a c) as (Hname' & Htus' & _). simpl in Hname', Htus'.
    rewrite Hname' in *. rewrite Htus' in *.
    split; [exact Hname|]. split; [exact Htus|].
    destruct c as [s | batch rand]; simpl in *.
    + destruct (act_counters a s) as (Hb & Hs & _).
      rewrite Hsteps, Hbatches, Hb, Hs.
      split; destruct (name a); simpl; lia.
    + destruct (learn_ok _ _ _ _ Hcall) as (_ & Hb & _).
      pose proof (learn_frame a batch rand) as Hf. simpl in Hf.
      destruct Hf as (_ & _ & _ & _ & Hs & _).
      rewrite Hsteps, Hbatches, Hb, Hs.
      split; destruct (name a); simpl; lia.
Qed.

(** X19: on an agent as constructed, any sequence of calls that returns
    leaves [steps_done] at the number of [act] calls made in the Atari
    classes (and at 0 in the others), and [batches_done] at the number of
    [learn] calls made in the offline classes (and at 0 in the others). *)
Theorem run_counts_calls (c : AgentClass) (n : nat) (cfg : Config)
    (policy0 target0 : Params) (calls : list Call) (a' : Agent) :
  run (init c n cfg policy0 target0) calls = Ok a' ->
  steps_done a' = (match c with
                   | AtariDQNAgent | AtariDoubleDQNAgent => acts calls
                   | _ => 0%nat
                   end) /\
  batches_done a' = (if offline c then learns calls else 0%nat).
Proof.
  intros Hrun. destruct (run_counters _ _ _ Hrun) as (_ & _ & Hs & Hb).
  rewrite init_name in Hs, Hb. rewrite Hs, Hb.
  destruct c; simpl; auto.
Qed.

(** X20: on an offline agent as constructed, a [learn] call that returns
    leaves the target equal to the policy when the number of [learn] calls
    made before it is a multiple of [TARGET_UPDATE_INTERVAL], and leaves
    the target untouched otherwise. *)
Theorem offline_sync_schedule (c : AgentClass) (n : nat) (cfg : Config)
    (policy0 target0 : Params) (calls : list Call) (a1 a' : Agent)
    (batch : list (Transition State)) (rand : list Q) :
  offline c = true ->
  run (init c n cfg policy0 target0) calls = Ok a1 ->
  learn a1 batch rand = Ok a' ->
  target a' = (if (learns calls mod TARGET_UPDATE_INTERVAL cfg =? 0)%nat
               then policy a' else target a1).
Proof.
  intros Hoff Hrun Hlearn.
  destruct (run_counters _ _ _ Hrun) as (Hname & Htus & _ & Hb).
  destruct (learn_ok _ _ _ _ Hlearn) as (_ & _ & Ht).
  rewrite init_name in Hname, Hb.
  rewrite Ht, Htus. unfold counter. rewrite Hname, Hoff, Hb, Hoff.
  destruct c; try discriminate; reflexivity.
Qed.

Lemma atari_target_kept (calls : list Call) (a a' : Agent) :
  name a = AtariDQNAgent \/ name a = AtariDoubleDQNAgent ->
  target_update_steps a = 2000%nat ->
  (1 <= steps_done a)%nat ->
  (steps_done a + acts calls < 2000)%nat ->
  run a calls = Ok a' ->
  target a' = target a.
Proof.
  revert a. induction calls as [|c rest IH]; intros a Hname Htus Hone Hfew Hrun.
  - simpl in Hrun. now injection Hrun as <-.
  - apply run_cons in Hrun as [Hcall Hrest].
    pose proof (call_frame a c) as (Hname' & Htus' & _). simpl in Hname', Htus'.
    destruct c as [s | batch rand]; simpl in *.
    + destruct (act_counters a s) as (_ & Hs & Ht & _).
      rewrite (IH (act a s)); try congruence.
      * rewrite Hs. destruct Hname as [-> | ->]; lia.
      * rewrite Hs. destruct Hname as [-> | ->]; lia.
    + destruct (learn_ok _ _ _ _ Hcall) as (_ & _ & Ht).
      pose proof (learn_frame a batch rand) as Hf. simpl in Hf.
      destruct Hf as (_ & _ & _ & _ & Hs & _).
      rewrite (IH (left_state (learn a batch rand))); try congruence.
      rewrite Hcall. simpl. rewrite Ht, Htus.
      assert (Hcount : counter a = steps_done a)
        by (unfold counter; destruct Hname as [-> | ->]; reflexivity).
      rewrite Hcount, Nat.mod_small by lia.
      destruct (steps_done a); [lia | reflexivity].
Qed.

(** X21: an Atari agent that acts before it first learns keeps the target
    network it was constructed with for as long as fewer than 2000 [act]
    calls were made, however many [learn] calls there are. *)
Theorem atari_target_frozen (c : AgentClass) (n : nat) (cfg : Config)
    (policy0 target0 : Params) (s : State) (calls : list Call) (a' : Agent) :
  c = AtariDQNAgent \/ c = AtariDoubleDQNAgent ->
  (acts calls < 1999)%nat ->
  run (init c n cfg policy0 target0) (Act s :: calls) = Ok a' ->
  target a' = target (init c n cfg policy0 target0).
Proof.
  intros Hc Hfew Hrun.
  apply run_cons in Hrun as [_ Hrest]. simpl in Hrest.
  pose proof (init_name c n cfg policy0 target0) as Hname.
  destruct (act_counters (init c n cfg policy0 target0) s) as (_ & Hs & Ht & _).
  rewrite <- Ht.
  assert (Hact : name (act (init c n cfg policy0 target0) s) = c).
  { unfold act. rewrite Hname. destruct c; reflexivity. }
  apply (atari_target_kept calls); try assumption.
  - rewrite Hact. exact Hc.
  - unfold act. rewrite Hname. destruct Hc as [-> | ->]; reflexivity.
  - rewrite Hs, Hname. destruct Hc as [-> | ->]; simpl; lia.
  - rewrite Hs, Hname. destruct Hc as [-> | ->]; simpl; lia.
Qed.

(** X22: with [target_update_steps] 0, as a configuration with
    [TARGET_UPDATE_INTERVAL] 0 gives, a [learn] that gets as far as the
    optimiser step raises [ZeroDivisionError] at the target test that
    follows it: the object is left with the new policy parameters and is
    otherwise unchanged. *)
Theorem learn_zero_target_interval (a : Agent) (batch : list (Transition State))
    (rand : list Q) :
  target_update_steps a = 0%nat ->
  (name a = REMOffDQNAgent -> rem_alpha rand <> None) ->
  (name a = QROffDQNAgent -> List.length batch <> 1%nat) ->
  exists loss_fn,
    learn a batch rand
    = Raise ZeroDivisionError
        (set_policy a (fst (optimizer_step (optimizer a) (policy a) loss_fn))
           (snd (optimizer_step (optimizer a) (policy a) loss_fn))).
Proof.
  intros Hn Hrem Hqr.
  destruct (learn_shape a batch rand)
    as [(f & m & Hl) | [(Hname & Hnone & _) | (Hname & Hone & _)]];
    [| now elim (Hrem Hname) | now elim (Hqr Hname)].
  exists f. rewrite Hl. unfold optimize, update_target, bind.
  destruct (optimizer_step (optimizer a) (policy a) f) as [o p]. simpl.
  now rewrite Hn.
Qed.

(** X23: with a writer attached and [summary_checkpoint] 0, a [learn]
    that gets as far as the optimiser step raises [ZeroDivisionError] at
    the logging test: nothing is logged and the batch counter is not
    advanced, but the policy was already updated and the target already
    reloaded if it was due. *)
Theorem learn_zero_summary_checkpoint (a : Agent) (batch : list (Transition State))
    (rand : list Q) (w : Summary) :
  summary_writer a = Some w ->
  summary_checkpoint a = 0%nat ->
  target_update_steps a <> 0%nat ->
  (name a = REMOffDQNAgent -> rem_alpha rand <> None) ->
  (name a = QROffDQNAgent -> List.length batch <> 1%nat) ->
  exists loss_fn a1,
    learn a batch rand = Raise ZeroDivisionError a1 /\
    policy a1 = snd (optimizer_step (optimizer a) (policy a) loss_fn) /\
    target a1 = (if (counter a mod target_update_steps a =? 0)%nat
                 then policy a1 else target a) /\
    summary_writer a1 = Some w /\
    batches_done a1 = batches_done a.
Proof.
  intros Hw Hc Hn Hrem Hqr.
  destruct (learn_shape a batch rand)
    as [(f & m & Hl) | [(Hname & Hnone & _) | (Hname & Hone & _)]];
    [| now elim (Hrem Hname) | now elim (Hqr Hname)].
  exists f. rewrite Hl. unfold optimize, update_target, log_metrics, bind, counter.
  destruct (optimizer_step (optimizer a) (policy a) f) as [o p]. simpl.
  destruct (target_update_steps a) eqn:Htus; [congruence|].
  destruct (_ =? 0)%nat; simpl; rewrite Hw, Hc;
    eexists; (split; [reflexivity|]); simpl; auto.
Qed.

(** What [optimize] hands to the writer. *)
Lemma optimize_logs (a : Agent) (loss_fn : Params -> Q) (m : Q) (w : Summary) :
  summary_writer a = Some w ->
  summary_checkpoint a <> 0%nat ->
  target_update_steps a <> 0%nat ->
  exists a',
    optimize a loss_fn m = Ok a' /\
    summary_writer a'
    = Some (if (counter a mod summary_checkpoint a =? 0)%nat
            then w ++ [("Loss"%string, Value (loss_fn (policy a)));
                       ("Expected Q Values"%string, Value m)]
            else w).
Proof.
  intros Hw Hc Hn.
  unfold optimize, update_target, log_metrics, bind, counter.
  destruct (optimizer_step (optimizer a) (policy a) loss_fn) as [o p]. simpl.
  destruct (target_update_steps a) eqn:Htus; [congruence|].
  destruct (summary_checkpoint a) eqn:Hck; [congruence|].
  destruct (_ =? 0)%nat; simpl; rewrite Hw, Hck;
    destruct (_ =? 0)%nat; simpl;
    eexists; (split; [reflexivity|]); simpl;
    unfold add_scalar; rewrite <- ?app_assoc; try reflexivity;
    destruct (offline (name a)); simpl; rewrite ?Hw; unfold add_scalar;
    rewrite <- ?app_assoc; reflexivity.
Qed.

(** X24: with a writer attached and both cadences nonzero, [learn] of
    [OfflineDQNAgent] returns.  When [batches_done] is a multiple of
    [summary_checkpoint] it has appended to the writer, under "Loss", the
    smooth L1 loss between the values that the policy network had for the
    actions taken, before the optimiser step, and the targets, and then,
    under "Expected Q Values", the mean of the targets; otherwise the
    writer is as it was. *)
Theorem learn_logging_cadence (a : Agent) (batch : list (Transition State))
    (rand : list Q) (w : Summary) :
  name a = OfflineDQNAgent ->
  summary_writer a = Some w ->
  summary_checkpoint a <> 0%nat ->
  target_update_steps a <> 0%nat ->
  batch <> [] ->
  let expected := dqn_expected (gamma a) (target a) batch in
  exists a',
    learn a batch rand = Ok a' /\
    summary_writer a'
    = Some (if (batches_done a mod summary_checkpoint a =? 0)%nat
            then w ++ [("Loss"%string,
                        Value (smooth_l1 (train_state_action_values (policy a) batch)
                                 expected));
                       ("Expected Q Values"%string, Value (mean expected))]
            else w).
Proof.
  intros Hname Hw Hc Hn _ expected.
  destruct (optimize_logs a (dqn_loss_train batch expected) (mean expected) w Hw Hc Hn)
    as (a' & Hopt & Hlog).
  exists a'. split.
  - unfold learn. rewrite Hname. exact Hopt.
  - rewrite Hlog. unfold counter. rewrite Hname. reflexivity.
Qed.

End RunFacts.

(** ** More on the LSTDQ system *)

Module LSPISystemFacts.
Import Tensor TensorFacts LSPI LSPIFacts.
Local Open Scope Q_scope.

Lemma fold_left_ext_in {A B : Type} (f g : A -> B -> A) (l : list B) (acc : A) :
  (forall x b, In b l -> f x b = g x b) ->
  fold_left f l acc = fold_left g l acc.
Proof.
  revert acc. induction l as [|b l IH]; intros acc Hfg; simpl; [reflexivity|].
  rewrite (Hfg acc b) by now left.
  apply IH. intros x b' Hb'. apply Hfg. now right.
Qed.

Section Agent.
Context `{BasisFunction}.

Lemma accumulate_vector (a : Agent) (acc : list (list Q) * list Q)
    (t : Transition Observation) (i : nat) :
  List.length (snd acc) = size ->
  List.length (snd (accumulate a acc t)) = size /\
  ((i < size)%nat ->
   nth i (snd (accumulate a acc t)) 0
   = nth i (snd acc) 0 + nth i (phi_sa t) 0 * reward t).
Proof.
  destruct acc as [a_mat b_vec]. simpl. intros Hlen. split.
  - unfold add. rewrite map2_length, length_map, phi_sa_length. lia.
  - intros Hi. unfold add.
    rewrite (nth_map2 Qplus _ _ i 0 0)
      by (rewrite ?length_map, ?phi_sa_length; lia).
    now rewrite (nth_map_default _ _ i 0) by now rewrite phi_sa_length.
Qed.

Lemma fold_accumulate_vector (a : Agent) (batch : list (Transition Observation))
    (acc : list (list Q) * list Q) (i : nat) :
  List.length (snd acc) = size ->
  List.length (snd (fold_left (accumulate a) batch acc)) = size /\
  ((i < size)%nat ->
   nth i (snd (fold_left (accumulate a) batch acc)) 0
   == nth i (snd acc) 0 + sum (map (fun t => nth i (phi_sa t) 0 * reward t) batch)).
Proof.
  revert acc. induction batch as [|t batch IH]; intros acc Hlen; simpl.
  - split; [exact Hlen | intros _; ring].
  - destruct (accumulate_vector a acc t i Hlen) as [Hlen' Hnth].
    destruct (IH _ Hlen') as [Hlen'' Hsum].
    split; [exact Hlen''|]. intros Hi.
    rewrite (Hsum Hi), (Hnth Hi). ring.
Qed.

Lemma fold_accumulate_square (a : Agent) (batch : list (Transition Observation))
    (acc : list (list Q) * list Q) :
  square size (fst acc) -> square size (fst (fold_left (accumulate a) batch acc)).
Proof.
  revert acc. induction batch as [|t batch IH]; intros acc Hsq; simpl; [exact Hsq|].
  apply IH. now apply accumulate_square.
Qed.

(** X25: for every batch, the matrix that [learn] of the LSPI agent hands
    to the solver is [size] by [size] and the right-hand side has [size]
    entries. *)
Theorem lspi_system_shape (a : Agent) (batch : list (Transition Observation)) :
  square size (fst (system a batch)) /\ List.length (snd (system a batch)) = size.
Proof.
  unfold system. split.
  - apply fold_accumulate_square. simpl. apply square_diagonal.
  - apply (fold_accumulate_vector a batch _ 0). simpl. apply repeat_length.
Qed.

(** X26: entry [i] of the right-hand side that [learn] of the LSPI agent
    hands to the solver is the sum over the batch of the reward times
    feature [i] of the state and the action taken. *)
Theorem lspi_rhs_entry (a : Agent) (batch : list (Transition Observation)) (i : nat) :
  (i < size)%nat ->
  nth i (snd (system a batch)) 0
  == sum (map (fun t => nth i (evaluate (state t) (action t)) 0 * reward t) batch).
Proof.
  intros Hi. unfold system.
  destruct (fold_accumulate_vector a batch (diagonal size (1 # 10), zeros size) i)
    as [_ Hsum]; [simpl; apply repeat_length|].
  rewrite (Hsum Hi). simpl. unfold zeros. rewrite nth_repeat. unfold phi_sa. ring.
Qed.

(** X27: the system that [learn] of the LSPI agent builds depends on the
    current weights only through the greedy actions they give on the
    states of the non-terminal transitions: two agents with the same gamma
    and the same such actions build the same system. *)
Theorem lspi_system_through_actions (a a' : Agent)
    (batch : list (Transition Observation)) :
  gamma a = gamma a' ->
  (forall t, In t batch -> done t = false -> act a (state t) = act a' (state t)) ->
  system a batch = system a' batch.
Proof.
  intros Hgamma Hact. unfold system. apply fold_left_ext_in.
  intros [a_mat b_vec] t Ht. unfold accumulate, phi_sprime. rewrite Hgamma.
  destruct (done t) eqn:Hdone; simpl; [reflexivity|].
  now rewrite (Hact t Ht Hdone).
Qed.

(** X28: the constructor of the LSPI agent turns a draw of [torch.rand],
    numbers in [0, 1), into as many weights in (-1, 1]. *)
Theorem lspi_init_weights (n : nat) (cfg : Config) (rand : list Q) :
  Forall (fun r => 0 <= r /\ r < 1) rand ->
  List.length (weights (init n cfg rand)) = List.length rand /\
  Forall (fun w => -1 < w /\ w <= 1) (weights (init n cfg rand)).
Proof.
  intros Hrand. simpl. split; [apply length_map|].
  apply Forall_map. eapply Forall_impl; [|exact Hrand]. simpl.
  intros r [Hlo Hhi]. split; Lqa.lra.
Qed.

End Agent.
End LSPISystemFacts.

(** ** More worked examples *)

Module WorkedMore.
Import Tensor Examples.
Local Open Scope Q_scope.

(** The first convolution on a height of 110: 26 windows of 8 at stride 4. *)
Lemma size_out_counts_windows_witness :
  (1 <= Networks.size_out 110 8 4 /\
   (Networks.size_out 110 8 4 - 1) * 4 + 8 <= 110
   < Networks.size_out 110 8 4 * 4 + 8)%Z.
Proof.
  apply (NetworkFacts.size_out_counts_windows 110 8 4); lia.
Defined.

Lemma greedy_action_first_best_witness :
  let a := init (H := tabular) OfflineDQNAgent 3 cfg [1; 3; 3] [0; 0; 0] in
  (greedy_action a tt < List.length (greedy_values a tt))%nat /\
  (forall j, (j < List.length (greedy_values a tt))%nat ->
             nth j (greedy_values a tt) 0
             <= nth (greedy_action a tt) (greedy_values a tt) 0) /\
  (forall j, (j < greedy_action a tt)%nat ->
             nth j (greedy_values a tt) 0
             < nth (greedy_action a tt) (greedy_values a tt) 0).
Proof.
  intros a. apply (GreedyFacts.greedy_action_first_best (H := tabular) a tt).
  discriminate.
Defined.

Lemma lspi_act_first_best_witness :
  (LSPI.act (H := blocks) Worked.lspi_sign_agent 1%Q < 2)%nat /\
  (forall b, (b < 2)%nat ->
             LSPI.dot [0; 1; 0; -1] (block_features 1 b)
             <= LSPI.dot [0; 1; 0; -1]
                  (block_features 1 (LSPI.act (H := blocks) Worked.lspi_sign_agent 1%Q))) /\
  (forall b, (b < LSPI.act (H := blocks) Worked.lspi_sign_agent 1%Q)%nat ->
             LSPI.dot [0; 1; 0; -1] (block_features 1 b)
             < LSPI.dot [0; 1; 0; -1]
                 (block_features 1 (LSPI.act (H := blocks) Worked.lspi_sign_agent 1%Q))).
Proof.
  apply (GreedyFacts.lspi_act_first_best (H := blocks) Worked.lspi_sign_agent 1%Q).
  discriminate.
Defined.


Lemma ensemble_learn_target_witness :
  let a := init (H := tabular) EnsembleOffDQNAgent 2 cfg [1; 3] [0; 0] in
  let batch := [step 1 false; step 2 true] in
  exists expected,
    learn a batch []
    = optimize a (ensemble_loss (H := tabular) (num_heads a) batch expected)
        (mean (List.concat expected)) /\
    List.length expected = num_heads a /\
    forall h, (h < num_heads a)%nat ->
      Forall2 (fun t y =>
                 if done t then y == reward t
                 else exists m,
                     is_max (nth h (head_values (target a) (new_state t)) []) m /\
                     y == reward t + gamma a * m)
        batch (nth h expected []).
Proof.
  intros a batch.
  apply (MixtureFacts.ensemble_learn_target (H := tabular) a batch []).
  - reflexivity.
  - intros t h _ _ Hh. simpl in Hh.
    destruct h as [|h]; [vm_compute; discriminate | lia].
Defined.

Lemma rem_learn_target_witness :
  let a := init (H := tabular) REMOffDQNAgent 2 cfg [1; 3] [0; 0] in
  let batch := [step 1 false; step 2 true] in
  let alpha := [(1 # 2) / ((1 # 2) + 0)] in
  exists expected,
    learn a batch [1 # 2]
    = optimize a (rem_loss (H := tabular) alpha batch expected) (mean expected) /\
    Forall2 (fun t y =>
               if done t then y == reward t
               else exists m,
                   is_max (map (fun i =>
                                  mix alpha (map (fun h => gather h i)
                                               (head_values (target a) (new_state t))))
                             (seq 0 (action_space a))) m /\
                   y == reward t + gamma a * m)
      batch expected.
Proof.
  intros a batch alpha.
  apply (MixtureFacts.rem_learn_target (H := tabular) a batch [1 # 2] alpha).
  - reflexivity.
  - reflexivity.
  - discriminate.
Defined.

(** Two heads that value the action taken at 1 and at 11, mixed with the
    weights 1/4 and 3/4.  On a batch of two transitions the values that
    enter the loss are the mixture 17/2, once per transition.  On a batch
    of one transition they are the two heads' own values. *)
Lemma rem_one_row_example :
  Forall2 Qeq
    (rem_state_action_values (H := two_heads) [1 # 4; 3 # 4] [1; 3]
       [step 0 false; step 0 false])
    [17 # 2; 17 # 2] /\
  Forall2 Qeq
    (rem_state_action_values (H := two_heads) [1 # 4; 3 # 4] [1; 3] [step 0 false])
    [1; 11].
Proof.
  split; repeat (constructor; [reflexivity|]); constructor.
Qed.

(** The evaluation loop with [EVAL_EPISODES] 1: it is still running at
    the end of a record without an episode end, and it exits behind the
    first episode end of a record that has one. *)
Lemma eval_run_example :
  Offline.eval_run 1 [(1, false)] Offline.start = None /\
  Offline.eval_run 1 [(1, false); (2, true); (5, false)] Offline.start
  = Some (Offline.mkEvaluation [] [0 + 1 + 2] 1, [(5, false)]).
Proof.
  split; reflexivity.
Qed.

Lemma qr_learn_target_witness :
  let a := init (H := tabular) QROffDQNAgent 2 cfg [1; 3] [0; 0] in
  let batch := [step 1 false; step 2 true] in
  learn a [step 1 false] [] = Raise IndexError a /\
  exists expected delta,
    learn a batch []
    = optimize a (qr_loss (H := tabular) batch expected delta)
        (mean (List.concat expected)) /\
    Forall2 (fun t row =>
               let next := quantile_values (target a) (new_state t) in
               let best := argmax (map mean next) in
               Forall2 (fun z y => y == reward t + gamma a * (if done t then 0 else z))
                 (nth best next []) row /\
               (next <> [] ->
                (best < List.length next)%nat /\
                is_max (map mean next) (mean (nth best next []))))
      batch expected.
Proof.
  intros a batch. split.
  - destruct (MixtureFacts.qr_learn_target (H := tabular) a [step 1 false] [])
      as [Hone _]; [reflexivity|].
    apply Hone. reflexivity.
  - destruct (MixtureFacts.qr_learn_target (H := tabular) a batch [])
      as [_ Hmany]; [reflexivity|].
    apply Hmany. discriminate.
Defined.

(** Targets 1..5 against predictions all 2, at the second quantile: the
    target 2 is not below the prediction, the weight is the level 2/5. *)
Lemma qr_weight_pinball_witness :
  nth 1 (nth 0 (qr_weights tau (qr_delta [[1; 2; 3; 4; 5]] [[2; 2; 2; 2; 2]])) []) 0
  == if Qlt_le_dec (nth 1 (nth 0 [[1; 2; 3; 4; 5]] []) 0
                    - nth 1 (nth 0 [[2; 2; 2; 2; 2]] []) 0) 0
     then 1 - inject_Z (Z.of_nat (1 + 1)) / 5
     else inject_Z (Z.of_nat (1 + 1)) / 5.
Proof.
  apply (QuantileFacts.qr_weight_pinball [[1; 2; 3; 4; 5]] [[2; 2; 2; 2; 2]] 0 1);
    simpl; unfold num_quantiles; lia.
Defined.

(** A top-quantile target of 1 against a prediction of 2. *)
Lemma qr_top_quantile_unpenalised_witness :
  nth 4 (nth 0 (qr_weights tau (qr_delta [[1; 1; 1; 1; 1]] [[2; 2; 2; 2; 2]])) []) 0
  == 0.
Proof.
  apply (QuantileFacts.qr_top_quantile_unpenalised [[1; 1; 1; 1; 1]] [[2; 2; 2; 2; 2]] 0);
    simpl; try lia.
  reflexivity.
Defined.

(** Two [act] calls around one [learn] call on an Atari [DoubleDQNAgent]. *)
Lemma run_counts_calls_witness :
  let calls := [Act (H := tabular) tt; Learn (H := tabular) [step 1 false] [];
                Act (H := tabular) tt] in
  let a' := left_state
              (run (H := tabular)
                 (init (H := tabular) AtariDoubleDQNAgent 2 cfg [1; 3] [0; 0]) calls) in
  steps_done a' = acts calls /\ batches_done a' = 0%nat.
Proof.
  intros calls a'.
  apply (run_counts_calls (H := tabular) AtariDoubleDQNAgent 2 cfg [1; 3] [0; 0] calls a').
  reflexivity.
Defined.

(** The third [learn] call of an [OfflineDQNAgent] with
    [TARGET_UPDATE_INTERVAL] 2: two calls were made before it, and it
    reloads the target. *)
Lemma offline_sync_schedule_witness :
  let calls := [Learn (H := tabular) [step 1 false] [];
                Learn (H := tabular) [step 1 false] []] in
  let a1 := left_state
              (run (H := tabular)
                 (init (H := tabular) OfflineDQNAgent 2 cfg [0; 0] [5; 5]) calls) in
  let a' := left_state (learn a1 [step 1 false] []) in
  target a' = (if (learns calls mod TARGET_UPDATE_INTERVAL cfg =? 0)%nat
               then policy a' else target a1).
Proof.
  intros calls a1 a'.
  apply (offline_sync_schedule (H := tabular) OfflineDQNAgent 2 cfg [0; 0] [5; 5]
           calls a1 a' [step 1 false] []); reflexivity.
Defined.

(** An Atari [DQNAgent] that acts once and then learns three times still
    has the target [5; 5] it was constructed with. *)
Lemma atari_target_frozen_witness :
  let calls := repeat (Learn (H := tabular) [step 1 false] []) 3 in
  let a' := left_state
              (run (H := tabular)
                 (init (H := tabular) AtariDQNAgent 2 cfg [0; 0] [5; 5])
                 (Act (H := tabular) tt :: calls)) in
  target a' = target (init (H := tabular) AtariDQNAgent 2 cfg [0; 0] [5; 5]).
Proof.
  intros calls a'.
  apply (atari_target_frozen (H := tabular) AtariDQNAgent 2 cfg [0; 0] [5; 5] tt calls a').
  - left. reflexivity.
  - simpl. lia.
  - reflexivity.
Defined.

Lemma learn_zero_target_interval_witness :
  let a := init (H := tabular) OfflineDQNAgent 2
             (mkConfig 100 0 (99 # 100) (1 # 1000) 1) [0; 0] [5; 5] in
  exists loss_fn,
    learn a [step 1 false] []
    = Raise ZeroDivisionError
        (set_policy a (fst (optimizer_step (optimizer a) (policy a) loss_fn))
           (snd (optimizer_step (optimizer a) (policy a) loss_fn))).
Proof.
  intros a.
  apply (learn_zero_target_interval (H := tabular) a [step 1 false] []).
  - reflexivity.
  - discriminate.
  - intros Hname. discriminate Hname.
Defined.

Lemma learn_zero_summary_checkpoint_witness :
  let a := add_summary_writer (H := tabular)
             (init (H := tabular) OfflineDQNAgent 2
                (mkConfig 0 2 (99 # 100) (1 # 1000) 1) [0; 0] [5; 5]) [] in
  exists loss_fn a1,
    learn a [step 1 false] [] = Raise ZeroDivisionError a1 /\
    policy a1 = snd (optimizer_step (optimizer a) (policy a) loss_fn) /\
    target a1 = (if (counter a mod target_update_steps a =? 0)%nat
                 then policy a1 else target a) /\
    summary_writer a1 = Some [] /\
    batches_done a1 = batches_done a.
Proof.
  intros a.
  apply (learn_zero_summary_checkpoint (H := tabular) a [step 1 false] [] []).
  - reflexivity.
  - reflexivity.
  - discriminate.
  - discriminate.
  - intros Hname. discriminate Hname.
Defined.

Lemma learn_logging_cadence_witness :
  let a := add_summary_writer (H := tabular)
             (init (H := tabular) OfflineDQNAgent 2 cfg [0; 0] [5; 5]) [] in
  let batch := [step 1 false] in
  let expected := dqn_expected (gamma a) (target a) batch in
  exists a',
    learn a batch [] = Ok a' /\
    summary_writer a'
    = Some (if (batches_done a mod summary_checkpoint a =? 0)%nat
            then [] ++ [("Loss"%string,
                         Value (smooth_l1 (train_state_action_values (policy a) batch)
                                  expected));
                        ("Expected Q Values"%string, Value (mean expected))]
            else []).
Proof.
  intros a batch.
  apply (learn_logging_cadence (H := tabular) a batch [] []).
  - reflexivity.
  - reflexivity.
  - discriminate.
  - discriminate.
  - discriminate.
Defined.

Lemma lspi_rhs_entry_witness :
  nth 1 (snd (LSPI.system (H := blocks) Worked.lspi_agent
                [mkTransition 1 0%nat 3 true 2; mkTransition 2 0%nat 1 false 1])) 0
  == sum (map (fun t : Transition Q =>
                 nth 1 (block_features (state t) (action t)) 0 * reward t)
            [mkTransition 1 0%nat 3 true 2; mkTransition 2 0%nat 1 false 1]).
Proof.
  apply (LSPISystemFacts.lspi_rhs_entry (H := blocks) Worked.lspi_agent
           [mkTransition 1 0%nat 3 true 2; mkTransition 2 0%nat 1 false 1] 1).
  simpl. lia.
Defined.

(** Two weight vectors with the same greedy action on the state 1. *)
Lemma lspi_system_through_actions_witness :
  LSPI.system (H := blocks) Worked.lspi_sign_agent [Worked.lspi_sign_step]
  = LSPI.system (H := blocks) (LSPI.mkAgent None 2 [0; 2; 0; -2] 1)
      [Worked.lspi_sign_step].
Proof.
  apply (LSPISystemFacts.lspi_system_through_actions (H := blocks)
           Worked.lspi_sign_agent (LSPI.mkAgent None 2 [0; 2; 0; -2] 1)
           [Worked.lspi_sign_step]).
  - reflexivity.
  - intros t [<- | []] _. reflexivity.
Defined.

Lemma lspi_init_weights_witness :
  List.length (LSPI.weights (LSPI.init 2 cfg [0; 1 # 2; 3 # 4; 9 # 10])) = 4%nat /\
  Forall (fun w => -1 < w /\ w <= 1)
    (LSPI.weights (LSPI.init 2 cfg [0; 1 # 2; 3 # 4; 9 # 10])).
Proof.
  apply (LSPISystemFacts.lspi_init_weights 2 cfg [0; 1 # 2; 3 # 4; 9 # 10]).
  repeat constructor; unfold Qle, Qlt; simpl; lia.
Defined.

End WorkedMore.
